(** * Correlation & Regression Explorer: the statistics of
      [src/components/ScatterPlotPlayground.jsx]

    The component keeps a list of clicked points and, whenever that list
    changes, recomputes Pearson's correlation coefficient
    ([calculateCorrelation]) and the least-squares line
    ([calculateRegression]).

    A JavaScript [Number] is an IEEE 754 binary64 value.  It is modelled by
    [spec_float] at precision 53 and maximal exponent 1024, whose operations
    round to nearest, ties to even, as the language prescribes.  Every
    definition taken from the source computes; only the module [Exact], which
    reads the correlation formula over the real numbers, does not. *)

From Stdlib Require Import ZArith List Bool Lia String Ascii.
From Stdlib Require Import SpecFloat DecimalString.
From Stdlib Require Import Reals Lra Psatz.
From Stdlib Require Import Morphisms Setoid.
Import ListNotations.

(** ** JavaScript numbers *)

Module JS.

Definition number := spec_float.

Definition prec : Z := 53.
Definition emax : Z := 1024.

Definition NaN : number := S754_nan.

(** The Number value of a mathematical integer (an array length, an
    integer literal). *)
Definition of_Z (z : Z) : number := binary_normalize prec emax z 0 false.
Definition of_nat (k : nat) : number := of_Z (Z.of_nat k).

Definition add : number -> number -> number := SFadd prec emax.
Definition sub : number -> number -> number := SFsub prec emax.
Definition mul : number -> number -> number := SFmul prec emax.
Definition div : number -> number -> number := SFdiv prec emax.
Definition sqrt : number -> number := SFsqrt prec emax.   (* Math.sqrt *)
Definition abs : number -> number := SFabs.               (* Math.abs *)
Definition neg : number -> number := SFopp.               (* unary minus *)

(** [a < b], [a > b] and [a === b] on numbers: every comparison with NaN
    is false and the two zeros are equal. *)
Definition lt (a b : number) : bool := SFltb a b.
Definition gt (a b : number) : bool := SFltb b a.
Definition strict_eq (a b : number) : bool := SFeqb a b.

Definition is_finite (a : number) : bool :=
  match a with
  | S754_zero _ | S754_finite _ _ _ => true
  | S754_infinity _ | S754_nan => false
  end.

(** The Number value of the decimal literal [m / 10^k], for [m] and [10^k]
    below [2^53] in magnitude: both integers are then exact and the division
    rounds once, to the number nearest to the literal. *)
Definition decimal (m : Z) (k : nat) : number :=
  div (of_Z m) (of_Z (10 ^ Z.of_nat k)).

End JS.

Declare Scope js_scope.
Delimit Scope js_scope with js.
Bind Scope js_scope with JS.number.
Infix "+" := JS.add : js_scope.
Infix "-" := JS.sub : js_scope.
Infix "*" := JS.mul : js_scope.
Infix "/" := JS.div : js_scope.
Infix "<" := JS.lt : js_scope.
Infix ">" := JS.gt : js_scope.
Infix "===" := JS.strict_eq (at level 70, no associativity) : js_scope.

(** The literals of the source. *)
Definition lit_0 : JS.number := S754_zero false.
Definition lit_0_0001 : JS.number := JS.decimal 1 4.   (* 0.0001 *)

(** ** Points *)

Record Point := mkPoint { x : JS.number; y : JS.number }.

(** [points.reduce((acc, p) => acc + f(p), 0)]: one pass, left to right,
    starting from the literal [0]. *)
Definition reduce_sum (f : Point -> JS.number) (points : list Point) : JS.number :=
  fold_left (fun acc p => (acc + f p)%js) points lit_0.

(** ** Formatting numbers: [Number.prototype.toFixed] *)

Module Format.

Import JS.
Local Open Scope Z_scope.
Local Open Scope string_scope.

(** Decimal digits of a non-negative integer. *)
Definition digits (v : Z) : string :=
  DecimalString.NilZero.string_of_uint (N.to_uint (Z.to_N v)).

Fixpoint zeros (k : nat) : string :=
  match k with
  | O => EmptyString
  | S k' => String "0" (zeros k')
  end.

(** The magnitude of a finite number as a fraction [num / den]. *)
Definition magnitude (m : positive) (e : Z) : Z * Z :=
  match e with
  | Zneg p => (Zpos m, 2 ^ Zpos p)
  | _ => (Zpos m * 2 ^ e, 1)
  end.

(** The integer [n] for which [n / 10^f - v] is closest to zero, the
    larger one when two are equally close. *)
Definition nearest_scaled (num den : Z) (f : nat) : Z :=
  (2 * num * 10 ^ Z.of_nat f + den) / (2 * den).

(** Steps 9 and 10 of [toFixed]: place the decimal point. *)
Definition place_point (n : Z) (f : nat) : string :=
  let m := digits n in
  match f with
  | O => m
  | _ =>
      let m := zeros (S f - String.length m) ++ m in
      let k := String.length m in
      substring 0 (k - f) m ++ "." ++ substring (k - f) f m
  end.

(** [Number::toString] for an integer of at least [10^21]: the shortest
    digit string that reads back as the same number, the closest one when
    several do, in exponent notation. *)
Definition reads_back (v : Z) (a : number) : bool :=
  match of_Z v, a with
  | S754_finite _ m1 e1, S754_finite _ m2 e2 => Pos.eqb m1 m2 && Z.eqb e1 e2
  | _, _ => false
  end.

Definition candidate (a : number) (v : Z) (k : nat) : option Z :=
  let p := 10 ^ Z.of_nat (String.length (digits v) - k) in
  let lo := v / p * p in
  let hi := lo + p in
  match reads_back lo a, reads_back hi a with
  | true, false => Some lo
  | false, true => Some hi
  | false, false => None
  | true, true =>
      match Z.compare (v - lo) (hi - v) with
      | Lt => Some lo
      | Gt => Some hi
      | Eq => if Z.even (lo / p) then Some lo else Some hi
      end
  end.

Fixpoint shortest (a : number) (v : Z) (k fuel : nat) : Z :=
  match fuel with
  | O => v
  | S fuel' =>
      match candidate a v k with
      | Some w => w
      | None => shortest a v (S k) fuel'
      end
  end.

Fixpoint strip_zeros (s : string) : string :=
  match s with
  | EmptyString => EmptyString
  | String c s' =>
      match strip_zeros s' with
      | EmptyString => if Ascii.eqb c "0" then EmptyString else String c EmptyString
      | t => String c t
      end
  end.

Definition exponential (a : number) (v : Z) : string :=
  let w := digits (shortest a v 1 (String.length (digits v))) in
  let e := digits (Z.of_nat (String.length w - 1)) in
  match strip_zeros w with
  | String d EmptyString => String d "e+" ++ e
  | String d ds => String d "." ++ ds ++ "e+" ++ e
  | EmptyString => "0"
  end.

(** [a.toFixed(f)] for [0 <= f <= 100]. *)
Definition toFixed (a : number) (f : nat) : string :=
  match a with
  | S754_nan => "NaN"
  | S754_infinity false => "Infinity"
  | S754_infinity true => "-Infinity"
  | S754_zero _ => place_point 0 f
  | S754_finite s m e =>
      let (num, den) := magnitude m e in
      let sign := if s then "-" else EmptyString in
      if Z.leb (10 ^ 21 * den) num
      then sign ++ exponential (S754_finite false m e) (num / den)
      else sign ++ place_point (nearest_scaled num den f) f
  end.

End Format.

(** ** Reading numbers: [Number(string)] *)

Module Parse.

Import JS.
Local Open Scope Z_scope.

(** White space and line terminators, as far as one byte can hold them. *)
Definition is_space (c : ascii) : bool :=
  let k := nat_of_ascii c in
  ((9 <=? k) && (k <=? 13) || (k =? 32))%nat.

Fixpoint trim_start (s : string) : string :=
  match s with
  | String c s' => if is_space c then trim_start s' else s
  | EmptyString => s
  end.

Fixpoint rev_onto (s acc : string) : string :=
  match s with
  | String c s' => rev_onto s' (String c acc)
  | EmptyString => acc
  end.

Definition trim (s : string) : string :=
  rev_onto (trim_start (rev_onto (trim_start s) EmptyString)) EmptyString.

(** The value of a digit in a radix of at most 16. *)
Definition digit_value (radix : Z) (c : ascii) : option Z :=
  let k := Z.of_nat (nat_of_ascii c) in
  let v :=
    if (48 <=? k) && (k <=? 57) then k - 48
    else if (97 <=? k) && (k <=? 102) then k - 87
    else if (65 <=? k) && (k <=? 70) then k - 55
    else radix in
  if v <? radix then Some v else None.

(** The longest run of digits at the head of [s]: its value once appended
    to [acc], how many digits it has, and what follows it. *)
Fixpoint take_digits (radix : Z) (s : string) (acc : Z) (count : nat)
  : Z * nat * string :=
  match s with
  | String c s' =>
      match digit_value radix c with
      | Some d => take_digits radix s' (radix * acc + d) (S count)
      | None => (acc, count, s)
      end
  | EmptyString => (acc, count, s)
  end.

(** The number nearest to [d * 10^e]. *)
Definition of_decimal (sign : bool) (d e : Z) : number :=
  match d, e with
  | Zpos p, Zneg q => SFdiv prec emax (S754_finite sign p 0)
                                      (S754_finite false (10 ^ q) 0)
  | Zpos p, _ => binary_normalize prec emax (if sign then - d * 10 ^ e else d * 10 ^ e) 0 false
  | _, _ => S754_zero sign
  end.

(** [ExponentPart], optional, then the end of the string. *)
Definition exponent_part (s : string) : option Z :=
  match s with
  | EmptyString => Some 0
  | String c s' =>
      if Ascii.eqb c "e" || Ascii.eqb c "E" then
        let '(neg, s'') :=
          match s' with
          | String "+" t => (false, t)
          | String "-" t => (true, t)
          | _ => (false, s')
          end in
        match take_digits 10 s'' 0 0 with
        | (_, O, _) => None
        | (v, _, EmptyString) => Some (if neg then - v else v)
        | _ => None
        end
      else None
  end.

(** [StrUnsignedDecimalLiteral]. *)
Definition unsigned_decimal (sign : bool) (s : string) : number :=
  if String.eqb s "Infinity" then S754_infinity sign else
  let '(ip, ni, rest) := take_digits 10 s 0 0 in
  let '(mant, nf, rest) :=
    match rest with
    | String "." t => take_digits 10 t ip 0
    | _ => (ip, O, rest)
    end in
  match (ni + nf)%nat, exponent_part rest with
  | S _, Some e => of_decimal sign mant (e - Z.of_nat nf)
  | _, _ => NaN
  end.

(** [NonDecimalIntegerLiteral] after its two-character prefix. *)
Definition non_decimal (radix : Z) (s : string) : number :=
  match take_digits radix s 0 0 with
  | (v, S _, EmptyString) => of_Z v
  | _ => NaN
  end.

(** [StringToNumber]. *)
Definition Number (s : string) : number :=
  match trim s with
  | EmptyString => S754_zero false
  | String "+" t => unsigned_decimal false t
  | String "-" t => unsigned_decimal true t
  | String "0" (String c t) as u =>
      if Ascii.eqb c "x" || Ascii.eqb c "X" then non_decimal 16 t
      else if Ascii.eqb c "o" || Ascii.eqb c "O" then non_decimal 8 t
      else if Ascii.eqb c "b" || Ascii.eqb c "B" then non_decimal 2 t
      else unsigned_decimal false u
  | u => unsigned_decimal false u
  end.

End Parse.

(** ** Result types *)

(** The [steps] object of [calculateCorrelation]. *)
Module CorrelationSteps.
Record t := mk {
  n : JS.number;
  sumX : string;
  sumY : string;
  sumXY : string;
  sumXSquare : string;
  sumYSquare : string;
  numerator : string;
  denominator : string
}.
End CorrelationSteps.

(** The [steps] object of [calculateRegression]. *)
Module RegressionSteps.
Record t := mk {
  n : JS.number;
  sumX : string;
  sumY : string;
  sumXY : string;
  sumXSquare : string;
  slope : string;
  intercept : string;
  slopeNumerator : string;
  slopeDenominator : string
}.
End RegressionSteps.

Record Line := mkLine { slope : JS.number; intercept : JS.number }.

(** [null] is [None]. *)
Module CorrelationResult.
Record t := mk {
  correlation : option JS.number;
  steps : option CorrelationSteps.t
}.
End CorrelationResult.

Module RegressionResult.
Record t := mk {
  line : option Line;
  steps : option RegressionSteps.t
}.
End RegressionResult.

(** ** The two statistics *)

Section Statistics.

Local Open Scope js_scope.
Import Format.

Definition calculateCorrelation (points : list Point) : CorrelationResult.t :=
  if (List.length points <? 3)%nat then CorrelationResult.mk None None else
  let n := JS.of_nat (List.length points) in
  let sumX := reduce_sum (fun p => x p) points in
  let sumY := reduce_sum (fun p => y p) points in
  let sumXY := reduce_sum (fun p => x p * y p) points in
  let sumXSquare := reduce_sum (fun p => x p * x p) points in
  let sumYSquare := reduce_sum (fun p => y p * y p) points in
  let yMean := sumY / n in
  let hasYVariation :=
    existsb (fun p => JS.abs (y p - yMean) > lit_0_0001) points in
  if negb hasYVariation then CorrelationResult.mk (Some lit_0) None else
  let numerator := n * sumXY - sumX * sumY in
  let denominator :=
    JS.sqrt ((n * sumXSquare - sumX * sumX) * (n * sumYSquare - sumY * sumY)) in
  if JS.abs denominator < lit_0_0001
  then CorrelationResult.mk (Some lit_0) None else
  let correlation :=
    if denominator === lit_0 then lit_0 else numerator / denominator in
  let steps :=
    CorrelationSteps.mk n
      (toFixed sumX 2) (toFixed sumY 2) (toFixed sumXY 2)
      (toFixed sumXSquare 2) (toFixed sumYSquare 2)
      (toFixed numerator 2) (toFixed denominator 2) in
  CorrelationResult.mk (Some correlation) (Some steps).

Definition calculateRegression (points : list Point) : RegressionResult.t :=
  if (List.length points <? 3)%nat then RegressionResult.mk None None else
  let n := JS.of_nat (List.length points) in
  let sumX := reduce_sum (fun p => x p) points in
  let sumY := reduce_sum (fun p => y p) points in
  let sumXY := reduce_sum (fun p => x p * y p) points in
  let sumXSquare := reduce_sum (fun p => x p * x p) points in
  let denominator := n * sumXSquare - sumX * sumX in
  if denominator === lit_0 then RegressionResult.mk None None else
  let slope := (n * sumXY - sumX * sumY) / denominator in
  let intercept := (sumY - slope * sumX) / n in
  let steps :=
    RegressionSteps.mk n
      (toFixed sumX 2) (toFixed sumY 2) (toFixed sumXY 2)
      (toFixed sumXSquare 2)
      (toFixed slope 3) (toFixed intercept 3)
      (toFixed (n * sumXY - sumX * sumY) 2) (toFixed denominator 2) in
  RegressionResult.mk (Some (mkLine slope intercept)) (Some steps).

End Statistics.

(** ** The component: its state, the click handler and the effect *)

Record State := mkState {
  points : list Point;
  correlation : option JS.number;
  regressionLine : option Line;
  calculationSteps : option CorrelationSteps.t;
  regressionSteps : option RegressionSteps.t
}.

(** The five [useState] initial values. *)
Definition initialState : State := mkState [] None None None None.

(** What [handlePlotClick] reads from its event: the click position, the
    plot's bounding rectangle and whether the target carries the class
    [point]. *)
Record MouseEvent := mkMouseEvent {
  clientX : JS.number;
  clientY : JS.number;
  rectLeft : JS.number;
  rectTop : JS.number;
  rectWidth : JS.number;
  rectHeight : JS.number;
  targetIsPoint : bool
}.

Section Component.

Local Open Scope js_scope.
Import Format Parse.

(** [handlePlotClick] reads the state variable [points] and either calls
    [setPoints] once or not at all: the result is the argument of that
    call, if any. *)
Definition handlePlotClick (e : MouseEvent) (points : list Point)
  : option (list Point) :=
  if targetIsPoint e then None else
  let relativeX := (clientX e - rectLeft e) / rectWidth e in
  let relativeY := (clientY e - rectTop e) / rectHeight e in
  let x0 := Number (toFixed (relativeX * JS.of_Z 20 - JS.of_Z 10) 2) in
  let y0 := Number (toFixed (JS.neg relativeY * JS.of_Z 20 + JS.of_Z 10) 2) in
  let pointExists := existsb (fun p => (x p === x0) && (y p === y0)) points in
  if negb pointExists then Some (points ++ [mkPoint x0 y0]) else None.

(** Its two halves, named: the coordinates of a click, and the insertion
    of a candidate point ([handlePlotClick_eq] below). *)
Definition clickCoordinates (e : MouseEvent) : JS.number * JS.number :=
  let relativeX := (clientX e - rectLeft e) / rectWidth e in
  let relativeY := (clientY e - rectTop e) / rectHeight e in
  (Number (toFixed (relativeX * JS.of_Z 20 - JS.of_Z 10) 2),
   Number (toFixed (JS.neg relativeY * JS.of_Z 20 + JS.of_Z 10) 2)).

Definition insertPoint (points : list Point) (x0 y0 : JS.number)
  : option (list Point) :=
  let pointExists := existsb (fun p => (x p === x0) && (y p === y0)) points in
  if negb pointExists then Some (points ++ [mkPoint x0 y0]) else None.

Definition setPoints (ps : list Point) (s : State) : State :=
  mkState ps (correlation s) (regressionLine s)
    (calculationSteps s) (regressionSteps s).

(** The body of the effect, which runs after the first render and after
    every render in which [points] has changed. *)
Definition updateStatistics (s : State) : State :=
  let r := calculateCorrelation (points s) in
  let regressionResult := calculateRegression (points s) in
  mkState (points s)
    (CorrelationResult.correlation r)
    (RegressionResult.line regressionResult)
    (CorrelationResult.steps r)
    (RegressionResult.steps regressionResult).

(** The state once the component is mounted, after one click, and after a
    sequence of clicks. *)
Definition mounted : State := updateStatistics initialState.

Definition click (e : MouseEvent) (s : State) : State :=
  match handlePlotClick e (points s) with
  | Some ps => updateStatistics (setPoints ps s)
  | None => s
  end.

Definition run (events : list MouseEvent) : State :=
  fold_left (fun s e => click e s) events mounted.

End Component.

(** ** The quantities the statements are about

    The names below stand for the expressions that the two functions bind
    with [const]; the lemmas [calculateCorrelation_eq] and
    [calculateRegression_eq] tie them to the functions. *)

Section Quantities.

Local Open Scope js_scope.
Variable points : list Point.

Definition count : JS.number := JS.of_nat (List.length points).
Definition sum_x : JS.number := reduce_sum (fun p => x p) points.
Definition sum_y : JS.number := reduce_sum (fun p => y p) points.
Definition sum_xy : JS.number := reduce_sum (fun p => x p * y p) points.
Definition sum_xx : JS.number := reduce_sum (fun p => x p * x p) points.
Definition sum_yy : JS.number := reduce_sum (fun p => y p * y p) points.

Definition y_mean : JS.number := sum_y / count.
Definition has_y_variation : bool :=
  existsb (fun p => JS.abs (y p - y_mean) > lit_0_0001) points.

(** [n * sumXY - sumX * sumY], the numerator of both statistics. *)
Definition numerator : JS.number := count * sum_xy - sum_x * sum_y.

Definition correlation_denominator : JS.number :=
  JS.sqrt ((count * sum_xx - sum_x * sum_x) * (count * sum_yy - sum_y * sum_y)).

Definition regression_denominator : JS.number :=
  count * sum_xx - sum_x * sum_x.

Definition regression_slope : JS.number := numerator / regression_denominator.
Definition regression_intercept : JS.number :=
  (sum_y - regression_slope * sum_x) / count.

(** The point sequence reaches the final division of
    [calculateCorrelation]: it has y-variation and its denominator is not
    below the threshold. *)
Definition passes_guards : bool :=
  has_y_variation && negb (JS.abs correlation_denominator < lit_0_0001).

End Quantities.

Definition finite_point (p : Point) : bool :=
  JS.is_finite (x p) && JS.is_finite (y p).

(** [a <= b] and membership in the interval from -1 to 1, on numbers. *)
Definition js_le (a b : JS.number) : bool := SFleb a b.
Definition in_unit_interval (r : JS.number) : bool :=
  js_le (JS.of_Z (-1)) r && js_le r (JS.of_Z 1).

(** The stored statistics are those of the stored points. *)
Definition fresh (s : State) : Prop := updateStatistics s = s.

(** ** The coefficient in exact arithmetic

    The expression of [calculateCorrelation], read over the real numbers:
    the same sums, numerator and denominator with no rounding.  This is the
    quantity whose range is the interval from -1 to 1. *)

Module Exact.
Local Open Scope R_scope.

(** The real number a finite [Number] stands for. *)
Definition real_of (a : JS.number) : R :=
  match a with
  | S754_finite s m e =>
      let (num, den) := Format.magnitude m e in
      IZR (cond_Zopp s num) / IZR den
  | _ => 0
  end.

Definition real_point (p : Point) : R * R := (real_of (x p), real_of (y p)).

Definition sum (f : R * R -> R) (pts : list (R * R)) : R :=
  fold_left (fun acc p => acc + f p) pts 0.

Definition numerator (pts : list (R * R)) : R :=
  INR (List.length pts) * sum (fun p => fst p * snd p) pts
  - sum fst pts * sum snd pts.

Definition spread (f : R * R -> R) (pts : list (R * R)) : R :=
  INR (List.length pts) * sum (fun p => f p * f p) pts - sum f pts * sum f pts.

Definition denominator (pts : list (R * R)) : R :=
  sqrt (spread fst pts * spread snd pts).

(** The quotient, which exists when the denominator is not zero. *)
Definition correlation (pts : list (R * R)) : option R :=
  if Req_EM_T (denominator pts) 0 then None
  else Some (numerator pts / denominator pts).

End Exact.

(** ** The reset button and sequences of actions *)

(** The handler of the reset button, [() => setPoints([])], followed by
    the re-render it causes. *)
Definition reset (s : State) : State := updateStatistics (setPoints [] s).

Inductive Action :=
| Click (e : MouseEvent)
| Reset.

Definition act (a : Action) (s : State) : State :=
  match a with
  | Click e => click e s
  | Reset => reset s
  end.

(** The state after a sequence of user actions on the mounted component. *)
Definition runActions (actions : list Action) : State :=
  fold_left (fun s a => act a s) actions mounted.

(** The test of the duplicate check, on two points: the one already stored
    and the candidate. *)
Definition same_place (p q : Point) : bool :=
  (JS.strict_eq (x p) (x q) && JS.strict_eq (y p) (y q))%bool.

(** No stored point would have rejected a later one. *)
Definition distinct_points (ps : list Point) : Prop :=
  ForallOrdPairs (fun p q => same_place p q = false) ps.

(** ** What the page shows *)

(** The text after [Correlation:],
    [correlation !== null ? correlation.toFixed(3) : "N/A"]. *)
Definition correlationText (s : State) : string :=
  match correlation s with
  | Some c => Format.toFixed c 3
  | None => "N/A"
  end.

(** The value line of the numerator,
    [points.length >= 3 && calculationSteps ? calculationSteps.numerator : "N/A"]. *)
Definition numeratorText (s : State) : string :=
  match (3 <=? List.length (points s))%nat, calculationSteps s with
  | true, Some st => CorrelationSteps.numerator st
  | _, _ => "N/A"
  end.

(** The red segment drawn for a regression line: what the immediately
    invoked arrow function inside the [svg] element computes. *)
Record Segment := mkSegment {
  svgX1 : JS.number;
  svgY1 : JS.number;
  svgX2 : JS.number;
  svgY2 : JS.number
}.

Definition regressionSegment (regressionLine : Line) : Segment :=
  let x1 := JS.of_Z (-10) in
  let x2 := JS.of_Z 10 in
  let y1 := (slope regressionLine * x1 + intercept regressionLine)%js in
  let y2 := (slope regressionLine * x2 + intercept regressionLine)%js in
  let svgX1 := ((x1 + JS.of_Z 10) / JS.of_Z 20 * JS.of_Z 600)%js in
  let svgY1 := ((JS.of_Z 10 - y1) / JS.of_Z 20 * JS.of_Z 600)%js in
  let svgX2 := ((x2 + JS.of_Z 10) / JS.of_Z 20 * JS.of_Z 600)%js in
  let svgY2 := ((JS.of_Z 10 - y2) / JS.of_Z 20 * JS.of_Z 600)%js in
  mkSegment svgX1 svgY1 svgX2 svgY2.

(** ** Vocabulary for the statements about symmetry and rounding *)

(** Equality of numbers up to the sign of zero: what [===] tests, with NaN
    equal to itself. *)
Definition same_number (a b : JS.number) : Prop :=
  match a, b with
  | S754_zero _, S754_zero _ => True
  | _, _ => a = b
  end.

Definition same_coefficient (a b : option JS.number) : Prop :=
  match a, b with
  | Some u, Some v => same_number u v
  | None, None => True
  | _, _ => False
  end.

Definition same_line (a b : option Line) : Prop :=
  match a, b with
  | Some u, Some v =>
      same_number (slope u) (slope v) /\ same_number (intercept u) (intercept v)
  | None, None => True
  | _, _ => False
  end.

(** The data reflected in the x axis, reflected in the y axis, and with
    the two coordinates exchanged. *)
Definition mirror_y (p : Point) : Point := mkPoint (x p) (JS.neg (y p)).
Definition mirror_x (p : Point) : Point := mkPoint (JS.neg (x p)) (y p).
Definition transpose (p : Point) : Point := mkPoint (y p) (x p).

(** [Number(v.toFixed(2))], the rounding that [handlePlotClick] applies to
    each raw coordinate, and the two raw coordinates of a click. *)
Definition snap (v : JS.number) : JS.number := Parse.Number (Format.toFixed v 2).

Definition rawX (e : MouseEvent) : JS.number :=
  ((clientX e - rectLeft e) / rectWidth e * JS.of_Z 20 - JS.of_Z 10)%js.

Definition rawY (e : MouseEvent) : JS.number :=
  (JS.neg ((clientY e - rectTop e) / rectHeight e) * JS.of_Z 20 + JS.of_Z 10)%js.

(** The number with [n] hundredths and sign [s], and the text [toFixed]
    writes for it. *)
Definition grid_value (s : bool) (n : Z) : JS.number :=
  match n with
  | Z0 => S754_zero s
  | _ => JS.decimal (if s then - n else n) 2
  end.

Definition signed_text (s : bool) (n : Z) : string :=
  ((if s then "-" else EmptyString) ++ Format.place_point n 2)%string.

(** A sum as a panel shows it,
    [points.length > 0 ? points.reduce(...).toFixed(2) : empty]. *)
Definition sumText (empty : string) (f : Point -> JS.number) (points : list Point)
  : string :=
  if (0 <? List.length points)%nat
  then Format.toFixed (reduce_sum f points) 2
  else empty.

(** ** Whole-number coordinates *)

(** [m * 2^k], as a positive number. *)
Definition shift_left (m : positive) (k : nat) : positive := Nat.iter k xO m.

(** The two steps that bring a mantissa to its canonical exponent: align
    to the left, then shift to the right. *)
Definition aligned (m : positive) (e : Z) : shr_record * Z :=
  let '(mz, ez) :=
    shl_align m e (fexp JS.prec JS.emax (Z.pos (digits2_pos m) + e)%Z) in
  shr_fexp JS.prec JS.emax (Z.pos mz) ez loc_Exact.

(** What remains of a rounding after the alignment. *)
Definition finish (s : bool) (st : shr_record * Z) : JS.number :=
  let '(mrs', e') := st in
  let '(mrs'', e'') :=
    shr_fexp JS.prec JS.emax
      (round_nearest_even (shr_m mrs') (loc_of_shr_record mrs')) e' loc_Exact in
  match shr_m mrs'' with
  | Z0 => S754_zero s
  | Zpos m =>
      if (e'' <=? JS.emax - JS.prec)%Z then S754_finite s m e'' else S754_infinity s
  | _ => S754_nan
  end.

(** The number of binary digits an integer below [2^53] lacks to fill a
    mantissa. *)
Definition slack (p : positive) : nat := Z.to_nat (53 - Z.pos (digits2_pos p)).

(** Points with whole-number coordinates. *)
Definition integer_point (z : Z * Z) : Point :=
  mkPoint (JS.of_Z (fst z)) (JS.of_Z (snd z)).

(** Coordinates inside the plot's domain. *)
Definition in_domain (z : Z * Z) : Prop :=
  (-10 <= fst z <= 10 /\ -10 <= snd z <= 10)%Z.

(** A sum over the points, in the integers. *)
Definition zsum (g : Z * Z -> Z) (zs : list (Z * Z)) : Z :=
  fold_right (fun z acc => (g z + acc)%Z) 0%Z zs.

Definition SX (zs : list (Z * Z)) : Z := zsum fst zs.
Definition SY (zs : list (Z * Z)) : Z := zsum snd zs.
Definition SXY (zs : list (Z * Z)) : Z := zsum (fun z => (fst z * snd z)%Z) zs.
Definition SXX (zs : list (Z * Z)) : Z := zsum (fun z => (fst z * fst z)%Z) zs.
Definition SYY (zs : list (Z * Z)) : Z := zsum (fun z => (snd z * snd z)%Z) zs.

(** [n * SXY - SX * SY], [n * SXX - SX * SX] and [n * SYY - SY * SY], in
    the integers. *)
Definition exact_numerator (zs : list (Z * Z)) : Z :=
  (Z.of_nat (List.length zs) * SXY zs - SX zs * SY zs)%Z.
Definition exact_spread_x (zs : list (Z * Z)) : Z :=
  (Z.of_nat (List.length zs) * SXX zs - SX zs * SX zs)%Z.
Definition exact_spread_y (zs : list (Z * Z)) : Z :=
  (Z.of_nat (List.length zs) * SYY zs - SY zs * SY zs)%Z.

(** Points on the line [q * y = p * x + d]. *)
Definition on_line (p q d : Z) (z : Z * Z) : Prop :=
  (q * snd z = p * fst z + d)%Z.

(** Three points above one another whose squares overflow: [y] is
    [2^600], [0] and [-2^600]. *)
Definition towering_points : list Point :=
  [mkPoint lit_0 (S754_finite false 4503599627370496 548);
   mkPoint lit_0 lit_0;
   mkPoint lit_0 (S754_finite true 4503599627370496 548)].

(** A click at the page position [(cx, cy)] on a plot of 600 by 600 pixels
    whose corner is at (8, 100). *)
Definition plot_click (cx cy : Z) : MouseEvent :=
  mkMouseEvent (JS.of_Z cx) (JS.of_Z cy) (JS.of_Z 8) (JS.of_Z 100)
               (JS.of_Z 600) (JS.of_Z 600) false.

(** Whole-number points used as examples. *)
Definition rising_points : list (Z * Z) := [(0, 1); (1, 3); (2, 5)]%Z.
Definition falling_points : list (Z * Z) := [(-4, 5); (0, 3); (2, 2); (6, 0)]%Z.
Definition stacked_points : list (Z * Z) := [(3, 1); (3, 4); (3, 9)]%Z.

(** ** Inputs used as examples *)

(** (0,0), (1,1), (2,2) *)
Definition diagonal_points : list Point :=
  [mkPoint (JS.of_Z 0) (JS.of_Z 0); mkPoint (JS.of_Z 1) (JS.of_Z 1);
   mkPoint (JS.of_Z 2) (JS.of_Z 2)].

(** (0,5), (1,5), (2,5) *)
Definition constant_y_points : list Point :=
  [mkPoint (JS.of_Z 0) (JS.of_Z 5); mkPoint (JS.of_Z 1) (JS.of_Z 5);
   mkPoint (JS.of_Z 2) (JS.of_Z 5)].

(** (3,1), (3,4), (3,9) *)
Definition identical_x_points : list Point :=
  [mkPoint (JS.of_Z 3) (JS.of_Z 1); mkPoint (JS.of_Z 3) (JS.of_Z 4);
   mkPoint (JS.of_Z 3) (JS.of_Z 9)].

(** (0,0), (0.1,0.3), (0.3,0.9): three points on the line [y = 3 x]. *)
Definition steep_points : list Point :=
  [mkPoint (JS.decimal 0 1) (JS.decimal 0 1);
   mkPoint (JS.decimal 1 1) (JS.decimal 3 1);
   mkPoint (JS.decimal 3 1) (JS.decimal 9 1)].

(** (-9.98,1), (-9.98,2), (-9.98,4): three points with the same [x]. *)
Definition column_points : list Point :=
  [mkPoint (JS.decimal (-998) 2) (JS.of_Z 1);
   mkPoint (JS.decimal (-998) 2) (JS.of_Z 2);
   mkPoint (JS.decimal (-998) 2) (JS.of_Z 4)].

(** ** The library functions on examples *)

Example lit_0_0001_value :
  lit_0_0001 = S754_finite false 7378697629483821 (-66).
Proof. vm_compute. reflexivity. Qed.

Example toFixed_examples :
  Format.toFixed (JS.decimal 1005 3) 2 = "1.00"%string /\
  Format.toFixed (JS.decimal 8345 3) 2 = "8.35"%string /\
  Format.toFixed (JS.decimal (-25) 1) 0 = "-3"%string /\
  Format.toFixed (JS.decimal (-1) 3) 2 = "-0.00"%string /\
  Format.toFixed (S754_zero true) 2 = "0.00"%string /\
  Format.toFixed (JS.decimal 123456 3) 3 = "123.456"%string /\
  Format.toFixed (JS.of_Z (2 ^ 70)) 2 = "1.1805916207174113e+21"%string /\
  Format.toFixed (JS.of_Z (10 ^ 21)) 2 = "1e+21"%string /\
  Format.toFixed JS.NaN 2 = "NaN"%string.
Proof. repeat split; vm_compute; reflexivity. Qed.

Example Number_examples :
  Parse.Number "9.95" = JS.decimal 995 2 /\
  Parse.Number "-0.00" = S754_zero true /\
  Parse.Number " 12 " = JS.of_Z 12 /\
  Parse.Number EmptyString = lit_0 /\
  Parse.Number "+.5e-1" = JS.decimal 5 2 /\
  Parse.Number "0x1F" = JS.of_Z 31 /\
  Parse.Number "1e+21" = JS.of_Z (10 ^ 21) /\
  Parse.Number "-Infinity" = S754_infinity true /\
  Parse.Number "12px" = JS.NaN.
Proof. repeat split; vm_compute; reflexivity. Qed.

(** Four clicks on a plot of 600 by 600 pixels whose corner is at (8, 100):
    near the lower right corner, at the centre, near the upper left corner
    and at the centre again.  The fourth is rejected. *)
Example click_example :
  let e := fun cx cy =>
    mkMouseEvent (JS.of_Z cx) (JS.of_Z cy) (JS.of_Z 8) (JS.of_Z 100)
                 (JS.of_Z 600) (JS.of_Z 600) false in
  points (run [e 607 699; e 308 400; e 9 101; e 308 400]%Z)
    = [mkPoint (JS.decimal 997 2) (JS.decimal (-997) 2);
       mkPoint lit_0 lit_0;
       mkPoint (JS.decimal (-997) 2) (JS.decimal 997 2)].
Proof. vm_compute. reflexivity. Qed.

(** Three points with the same [x], -9.98: rounding leaves
    [n * sumXSquare - sumX * sumX] a little below zero, so the regression
    line is not null, and the correlation denominator is the square root of
    a negative product. *)
Example column_example :
  JS.lt (regression_denominator column_points) lit_0 = true /\
  RegressionResult.line (calculateRegression column_points)
    = Some (mkLine (JS.decimal (-25) 2)
                   (S754_finite true 5824655518065845 (-55))) /\
  correlation_denominator column_points = JS.NaN.
Proof. repeat split; vm_compute; reflexivity. Qed.

(** ** Unfolding lemmas *)

Lemma calculateCorrelation_few (points : list Point) :
  (List.length points < 3)%nat ->
  calculateCorrelation points = CorrelationResult.mk None None.
Proof.
  intros H. unfold calculateCorrelation.
  apply Nat.ltb_lt in H. now rewrite H.
Qed.

Lemma calculateRegression_few (points : list Point) :
  (List.length points < 3)%nat ->
  calculateRegression points = RegressionResult.mk None None.
Proof.
  intros H. unfold calculateRegression.
  apply Nat.ltb_lt in H. now rewrite H.
Qed.

Lemma calculateCorrelation_eq (points : list Point) :
  (3 <= List.length points)%nat ->
  calculateCorrelation points =
    if negb (has_y_variation points)
    then CorrelationResult.mk (Some lit_0) None
    else if JS.lt (JS.abs (correlation_denominator points)) lit_0_0001
    then CorrelationResult.mk (Some lit_0) None
    else CorrelationResult.mk
           (Some (if JS.strict_eq (correlation_denominator points) lit_0
                  then lit_0
                  else JS.div (numerator points) (correlation_denominator points)))
           (Some (CorrelationSteps.mk (count points)
                    (Format.toFixed (sum_x points) 2)
                    (Format.toFixed (sum_y points) 2)
                    (Format.toFixed (sum_xy points) 2)
                    (Format.toFixed (sum_xx points) 2)
                    (Format.toFixed (sum_yy points) 2)
                    (Format.toFixed (numerator points) 2)
                    (Format.toFixed (correlation_denominator points) 2))).
Proof.
  intros H. unfold calculateCorrelation.
  assert (Hlt : (List.length points <? 3)%nat = false) by (apply Nat.ltb_ge; exact H).
  rewrite Hlt. reflexivity.
Qed.

Lemma calculateRegression_eq (points : list Point) :
  (3 <= List.length points)%nat ->
  calculateRegression points =
    if JS.strict_eq (regression_denominator points) lit_0
    then RegressionResult.mk None None
    else RegressionResult.mk
           (Some (mkLine (regression_slope points) (regression_intercept points)))
           (Some (RegressionSteps.mk (count points)
                    (Format.toFixed (sum_x points) 2)
                    (Format.toFixed (sum_y points) 2)
                    (Format.toFixed (sum_xy points) 2)
                    (Format.toFixed (sum_xx points) 2)
                    (Format.toFixed (regression_slope points) 3)
                    (Format.toFixed (regression_intercept points) 3)
                    (Format.toFixed (numerator points) 2)
                    (Format.toFixed (regression_denominator points) 2))).
Proof.
  intros H. unfold calculateRegression.
  assert (Hlt : (List.length points <? 3)%nat = false) by (apply Nat.ltb_ge; exact H).
  rewrite Hlt. reflexivity.
Qed.

(** ** Comparisons *)

Lemma compare_cont_Eq_swap (p q : positive) :
  Pos.compare_cont Eq q p = CompOpp (Pos.compare_cont Eq p q).
Proof. exact (Pos.compare_antisym p q). Qed.

(** [a <= b] excludes [b < a]; NaN satisfies neither. *)
Lemma js_le_not_gt (a b : JS.number) :
  js_le a b = true -> JS.gt a b = false.
Proof.
  unfold js_le, JS.gt, SFleb, SFltb.
  destruct a as [sa | sa | | sa ma ea], b as [sb | sb | | sb mb eb]; simpl;
    try destruct sa; try destruct sb; simpl; try congruence.
  - rewrite (Z.compare_antisym ea eb), (compare_cont_Eq_swap ma mb).
    destruct (ea ?= eb)%Z; simpl; try congruence.
    destruct (Pos.compare_cont Eq ma mb); simpl; congruence.
  - rewrite (Z.compare_antisym ea eb), (compare_cont_Eq_swap ma mb).
    destruct (ea ?= eb)%Z; simpl; try congruence.
    destruct (Pos.compare_cont Eq ma mb); simpl; congruence.
Qed.

(** A denominator that is [=== 0] is below the threshold, so the
    [denominator === 0] test of [calculateCorrelation] is reached only when
    it fails. *)
Lemma zero_below_threshold (d : JS.number) :
  JS.strict_eq d lit_0 = true -> JS.lt (JS.abs d) lit_0_0001 = true.
Proof.
  destruct d as [s | s | | s m e]; try destruct s; simpl; intros H;
    try discriminate H; reflexivity.
Qed.

(** ** Too few points *)

(** C1: with fewer than three points [calculateCorrelation] returns a null
    coefficient and null steps, and [calculateRegression] a null line and
    null steps. *)
Theorem few_points_give_null (points : list Point) :
  (List.length points < 3)%nat ->
  calculateCorrelation points = CorrelationResult.mk None None /\
  calculateRegression points = RegressionResult.mk None None.
Proof.
  intros H. split.
  - now apply calculateCorrelation_few.
  - now apply calculateRegression_few.
Qed.

Lemma few_points_give_null_witness :
  calculateCorrelation [mkPoint (JS.of_Z 1) (JS.of_Z 2); mkPoint (JS.of_Z 3) (JS.of_Z 5)]
    = CorrelationResult.mk None None /\
  calculateRegression [mkPoint (JS.of_Z 1) (JS.of_Z 2); mkPoint (JS.of_Z 3) (JS.of_Z 5)]
    = RegressionResult.mk None None.
Proof.
  apply (few_points_give_null
           [mkPoint (JS.of_Z 1) (JS.of_Z 2); mkPoint (JS.of_Z 3) (JS.of_Z 5)]).
  simpl. lia.
Defined.

(** ** The regression line *)

(** C2: with at least three points, when [n * sumXSquare - sumX * sumX] is
    not [=== 0] the line has slope
    [(n * sumXY - sumX * sumY) / (n * sumXSquare - sumX * sumX)] and
    intercept [(sumY - slope * sumX) / n], the sums being left-to-right
    accumulations from 0; when it is [=== 0] the result is
    [{ line: null, steps: null }]. *)
Theorem regression_line_formula (points : list Point) :
  (3 <= List.length points)%nat ->
  let n := JS.of_nat (List.length points) in
  let sumX := fold_left (fun acc p => acc + x p)%js points lit_0 in
  let sumY := fold_left (fun acc p => acc + y p)%js points lit_0 in
  let sumXY := fold_left (fun acc p => acc + x p * y p)%js points lit_0 in
  let sumXSquare := fold_left (fun acc p => acc + x p * x p)%js points lit_0 in
  let denominator := (n * sumXSquare - sumX * sumX)%js in
  let slope := ((n * sumXY - sumX * sumY) / denominator)%js in
  (JS.strict_eq denominator lit_0 = false ->
     RegressionResult.line (calculateRegression points)
       = Some (mkLine slope ((sumY - slope * sumX) / n)%js)) /\
  (JS.strict_eq denominator lit_0 = true ->
     calculateRegression points = RegressionResult.mk None None).
Proof.
  intros H n sumX sumY sumXY sumXSquare denominator slope.
  rewrite (calculateRegression_eq points H).
  change (regression_denominator points) with denominator.
  split; intros Hd; rewrite Hd; reflexivity.
Qed.

Lemma regression_line_formula_witness :
  let points := [mkPoint (JS.of_Z 0) (JS.of_Z 1); mkPoint (JS.of_Z 1) (JS.of_Z 3);
                 mkPoint (JS.of_Z 2) (JS.of_Z 5)] in
  RegressionResult.line (calculateRegression points)
    = Some (mkLine (JS.of_Z 2) (JS.of_Z 1)).
Proof.
  intros points.
  destruct (regression_line_formula points) as [Hline _].
  - simpl. lia.
  - rewrite Hline.
    + vm_compute. reflexivity.
    + vm_compute. reflexivity.
Defined.

(** ** The two guards of the correlation *)

(** C3: with at least three points that have y-variation, a denominator
    whose absolute value is below 0.0001 gives
    [{ correlation: 0, steps: null }]; the points (3,1), (3,4), (3,9) are
    such a case, and their regression line is null. *)
Theorem small_denominator_gives_zero :
  (forall points : list Point,
     (3 <= List.length points)%nat ->
     has_y_variation points = true ->
     JS.lt (JS.abs (correlation_denominator points)) lit_0_0001 = true ->
     calculateCorrelation points = CorrelationResult.mk (Some lit_0) None) /\
  (has_y_variation identical_x_points = true /\
   JS.lt (JS.abs (correlation_denominator identical_x_points)) lit_0_0001 = true /\
   calculateCorrelation identical_x_points = CorrelationResult.mk (Some lit_0) None /\
   RegressionResult.line (calculateRegression identical_x_points) = None).
Proof.
  split.
  - intros points Hlen Hvar Hden.
    rewrite (calculateCorrelation_eq points Hlen), Hvar, Hden. reflexivity.
  - repeat split; vm_compute; reflexivity.
Qed.

Lemma small_denominator_gives_zero_witness :
  calculateCorrelation identical_x_points = CorrelationResult.mk (Some lit_0) None.
Proof.
  apply (proj1 small_denominator_gives_zero identical_x_points).
  - simpl. lia.
  - vm_compute. reflexivity.
  - vm_compute. reflexivity.
Defined.

Lemma no_variation_of_all_close (points : list Point) :
  (forall p, In p points ->
     JS.gt (JS.abs (y p - y_mean points)%js) lit_0_0001 = false) ->
  has_y_variation points = false.
Proof.
  intros H. unfold has_y_variation.
  generalize (y_mean points) H. clear H. intros m H.
  induction points as [| p ps IH]; simpl.
  - reflexivity.
  - rewrite (H p (or_introl eq_refl)). simpl.
    apply IH. intros q Hq. apply H. now right.
Qed.

(** C4: with at least three points, if every [y] is within 0.0001 of the
    mean [sumY / n], the result is [{ correlation: 0, steps: null }]. *)
Theorem constant_y_gives_zero (points : list Point) :
  (3 <= List.length points)%nat ->
  (forall p, In p points ->
     js_le (JS.abs (y p - y_mean points)%js) lit_0_0001 = true) ->
  calculateCorrelation points = CorrelationResult.mk (Some lit_0) None.
Proof.
  intros Hlen Hclose.
  rewrite (calculateCorrelation_eq points Hlen).
  rewrite no_variation_of_all_close; [reflexivity |].
  intros p Hp. apply js_le_not_gt. now apply Hclose.
Qed.

Lemma constant_y_gives_zero_witness :
  calculateCorrelation constant_y_points = CorrelationResult.mk (Some lit_0) None.
Proof.
  apply (constant_y_gives_zero constant_y_points).
  - simpl. lia.
  - intros p Hp. simpl in Hp.
    destruct Hp as [<- | [<- | [<- | []]]]; vm_compute; reflexivity.
Defined.

(** ** The documented examples *)

(** C6: for (0,0), (1,1), (2,2) the coefficient is exactly 1, the slope
    exactly 1 and the intercept exactly 0. *)
Theorem diagonal_example :
  CorrelationResult.correlation (calculateCorrelation diagonal_points)
    = Some (JS.of_Z 1) /\
  RegressionResult.line (calculateRegression diagonal_points)
    = Some (mkLine (JS.of_Z 1) lit_0).
Proof. split; vm_compute; reflexivity. Qed.

(** C7: for (0,5), (1,5), (2,5) the y-variation guard fires and the
    coefficient is 0; the regression line has slope 0 and intercept 5. *)
Theorem constant_y_example :
  has_y_variation constant_y_points = false /\
  calculateCorrelation constant_y_points = CorrelationResult.mk (Some lit_0) None /\
  RegressionResult.line (calculateRegression constant_y_points)
    = Some (mkLine lit_0 (JS.of_Z 5)).
Proof. repeat split; vm_compute; reflexivity. Qed.

(** ** Inserting a point *)

Lemma handlePlotClick_eq (e : MouseEvent) (points : list Point) :
  handlePlotClick e points =
    if targetIsPoint e then None
    else insertPoint points (fst (clickCoordinates e)) (snd (clickCoordinates e)).
Proof. reflexivity. Qed.

Lemma existsb_of_member (points : list Point) (x0 y0 : JS.number) :
  (exists p, In p points /\
     JS.strict_eq (x p) x0 = true /\ JS.strict_eq (y p) y0 = true) ->
  existsb (fun p => JS.strict_eq (x p) x0 && JS.strict_eq (y p) y0) points = true.
Proof.
  intros [p [Hin [Hx Hy]]]. apply existsb_exists.
  exists p. split; [exact Hin |]. now rewrite Hx, Hy.
Qed.

(** A number that is not NaN is [===] to itself, so for such coordinates
    a point that is in the list is a duplicate in the sense of the handler. *)
Lemma strict_eq_refl (a : JS.number) :
  a <> JS.NaN -> JS.strict_eq a a = true.
Proof.
  unfold JS.strict_eq, SFeqb.
  destruct a as [s | s | | s m e]; simpl; intros H.
  - reflexivity.
  - now destruct s.
  - now contradiction H.
  - rewrite Z.compare_refl.
    assert (Hm : Pos.compare_cont Eq m m = Eq) by apply Pos.compare_refl.
    rewrite Hm. now destruct s.
Qed.

Lemma member_is_duplicate (ps : list Point) (x0 y0 : JS.number) :
  In (mkPoint x0 y0) ps -> x0 <> JS.NaN -> y0 <> JS.NaN ->
  exists p, In p ps /\
    JS.strict_eq (x p) x0 = true /\ JS.strict_eq (y p) y0 = true.
Proof.
  intros Hin Hx Hy. exists (mkPoint x0 y0). simpl.
  split; [exact Hin |]. split; now apply strict_eq_refl.
Qed.

(** C8: when the point list already holds a point whose [x] and [y] are
    [===] to the candidate's, the insertion does not call [setPoints]; a
    click with those coordinates then leaves the whole state as it was: the
    points, the two stored results, and what the two functions return on
    the points. *)
Theorem duplicate_point_rejected (ps : list Point) (x0 y0 : JS.number) :
  (exists p, In p ps /\
     JS.strict_eq (x p) x0 = true /\ JS.strict_eq (y p) y0 = true) ->
  insertPoint ps x0 y0 = None /\
  (forall (e : MouseEvent) (s : State),
     points s = ps -> clickCoordinates e = (x0, y0) ->
     click e s = s /\
     points (click e s) = ps /\
     calculateCorrelation (points (click e s)) = calculateCorrelation ps /\
     calculateRegression (points (click e s)) = calculateRegression ps).
Proof.
  intros H.
  assert (Hnone : insertPoint ps x0 y0 = None).
  { unfold insertPoint. now rewrite (existsb_of_member ps x0 y0 H). }
  split; [exact Hnone |].
  intros e s Hps Hxy.
  assert (Hsame : click e s = s).
  { unfold click.
    rewrite handlePlotClick_eq, Hxy, Hps. simpl fst. simpl snd.
    rewrite Hnone. now destruct (targetIsPoint e). }
  rewrite Hsame, Hps. repeat split.
Qed.

Lemma duplicate_point_rejected_witness :
  insertPoint diagonal_points (JS.of_Z 1) (JS.of_Z 1) = None.
Proof.
  refine (proj1 (duplicate_point_rejected diagonal_points (JS.of_Z 1) (JS.of_Z 1) _)).
  exists (mkPoint (JS.of_Z 1) (JS.of_Z 1)). split.
  - simpl. right. left. reflexivity.
  - split; vm_compute; reflexivity.
Defined.

(** ** Recomputation *)

Lemma updateStatistics_fresh (s : State) : fresh (updateStatistics s).
Proof. reflexivity. Qed.

Lemma click_fresh (e : MouseEvent) (s : State) : fresh s -> fresh (click e s).
Proof.
  intros H. unfold click.
  destruct (handlePlotClick e (points s)) as [ps |].
  - apply updateStatistics_fresh.
  - exact H.
Qed.

Lemma run_fresh (events : list MouseEvent) : fresh (run events).
Proof.
  unfold run.
  assert (H : fresh mounted) by apply updateStatistics_fresh.
  revert H. generalize mounted.
  induction events as [| e es IH]; intros s H; simpl.
  - exact H.
  - apply IH. now apply click_fresh.
Qed.

(** ** The coefficient is null only for too few points *)

Lemma correlation_of_many (points : list Point) :
  (3 <= List.length points)%nat ->
  CorrelationResult.correlation (calculateCorrelation points)
    = Some (if passes_guards points
            then JS.div (numerator points) (correlation_denominator points)
            else lit_0).
Proof.
  intros Hlen.
  rewrite (calculateCorrelation_eq points Hlen). unfold passes_guards.
  destruct (has_y_variation points); simpl; [| reflexivity].
  destruct (JS.lt (JS.abs (correlation_denominator points)) lit_0_0001) eqn:Hlt;
    simpl; [reflexivity |].
  destruct (JS.strict_eq (correlation_denominator points) lit_0) eqn:Hz;
    [| reflexivity].
  apply zero_below_threshold in Hz. congruence.
Qed.

(** C10: the coefficient is null exactly when there are fewer than three
    points; with at least three it is 0 when one of the two guards fires and
    the quotient [numerator / denominator] otherwise. *)
Theorem coefficient_null_only_when_few :
  (forall points : list Point,
     CorrelationResult.correlation (calculateCorrelation points) = None <->
     (List.length points < 3)%nat) /\
  (forall points : list Point,
     (3 <= List.length points)%nat ->
     CorrelationResult.correlation (calculateCorrelation points)
       = Some (if passes_guards points
               then JS.div (numerator points) (correlation_denominator points)
               else lit_0)).
Proof.
  split; [| exact correlation_of_many].
  intros points. split.
  - intros Hnull.
    destruct (Nat.lt_ge_cases (List.length points) 3) as [Hlt | Hge]; [exact Hlt |].
    rewrite (correlation_of_many points Hge) in Hnull. discriminate Hnull.
  - intros Hlt. now rewrite (calculateCorrelation_few points Hlt).
Qed.

Lemma coefficient_null_only_when_few_witness :
  CorrelationResult.correlation (calculateCorrelation diagonal_points)
    = Some (JS.of_Z 1).
Proof.
  rewrite (proj2 coefficient_null_only_when_few diagonal_points).
  - vm_compute. reflexivity.
  - simpl. lia.
Defined.

(** ** Exact arithmetic: the range of the coefficient *)

Section ExactFacts.

Import Exact.
Local Open Scope R_scope.

Lemma fold_sum_shift (f : R * R -> R) (pts : list (R * R)) (a : R) :
  fold_left (fun acc p => acc + f p) pts a = a + sum f pts.
Proof.
  unfold sum. revert a.
  induction pts as [| p ps IH]; intros a; simpl.
  - ring.
  - rewrite (IH (a + f p)), (IH (0 + f p)). ring.
Qed.

Lemma sum_cons (f : R * R -> R) (p : R * R) (ps : list (R * R)) :
  sum f (p :: ps) = f p + sum f ps.
Proof. unfold sum at 1. simpl. rewrite fold_sum_shift. ring. Qed.

Lemma sum_nil (f : R * R -> R) : sum f [] = 0.
Proof. reflexivity. Qed.

Lemma sum_squares_nonneg (g : R * R -> R) (pts : list (R * R)) :
  0 <= sum (fun p => g p * g p) pts.
Proof.
  induction pts as [| p ps IH].
  - rewrite sum_nil. lra.
  - rewrite sum_cons. nra.
Qed.

Lemma sum_affine_square (a b c : R) (pts : list (R * R)) :
  sum (fun p => (a * fst p + b * snd p + c) * (a * fst p + b * snd p + c)) pts
  = a * a * sum (fun p => fst p * fst p) pts
    + b * b * sum (fun p => snd p * snd p) pts
    + INR (List.length pts) * (c * c)
    + 2 * a * b * sum (fun p => fst p * snd p) pts
    + 2 * a * c * sum fst pts
    + 2 * b * c * sum snd pts.
Proof.
  induction pts as [| p ps IH].
  - simpl. rewrite !sum_nil. ring.
  - rewrite !sum_cons, IH.
    change (List.length (p :: ps)) with (S (List.length ps)). rewrite S_INR. ring.
Qed.

Lemma quadratic_form_nonneg (pts : list (R * R)) (s t : R) :
  0 <= INR (List.length pts) *
       (s * s * spread fst pts + 2 * s * t * numerator pts + t * t * spread snd pts).
Proof.
  set (n := INR (List.length pts)).
  pose proof (sum_squares_nonneg
    (fun p => n * s * fst p + n * t * snd p + - (s * sum fst pts + t * sum snd pts)) pts) as H.
  cbv beta in H. rewrite sum_affine_square in H. fold n in H.
  unfold spread, numerator. fold n.
  match goal with |- 0 <= ?g => match type of H with 0 <= ?h => replace g with h by ring end end.
  exact H.
Qed.

Lemma cauchy_schwarz (pts : list (R * R)) :
  0 <= spread fst pts /\ 0 <= spread snd pts /\
  numerator pts * numerator pts <= spread fst pts * spread snd pts.
Proof.
  destruct pts as [| p ps].
  - unfold spread, numerator. simpl. rewrite !sum_nil. lra.
  - set (pts := p :: ps).
    assert (Hn : 0 < INR (List.length pts)).
    { unfold pts. change (List.length (p :: ps)) with (S (List.length ps)).
      apply lt_0_INR. lia. }
    assert (Hq : forall s t,
      0 <= s * s * spread fst pts + 2 * s * t * numerator pts + t * t * spread snd pts).
    { intros s t. pose proof (quadratic_form_nonneg pts s t) as H. nra. }
    generalize dependent (numerator pts). generalize dependent (spread snd pts).
    generalize dependent (spread fst pts). intros A B C Hq.
    assert (HA : 0 <= A) by (pose proof (Hq 1 0); lra).
    assert (HB : 0 <= B) by (pose proof (Hq 0 1); lra).
    repeat split; try assumption.
    destruct (Rle_lt_or_eq_dec 0 B HB) as [Hpos | Hzero].
    + pose proof (Hq B (- C)) as H. nra.
    + subst B.
      destruct (Req_dec C 0) as [-> | HC]; [lra |].
      exfalso.
      pose proof (Hq 1 (- (A + 1) / (2 * C))) as H.
      replace (1 * 1 * A + 2 * 1 * (- (A + 1) / (2 * C)) * C
               + - (A + 1) / (2 * C) * (- (A + 1) / (2 * C)) * 0)
        with (-1) in H by (field; exact HC).
      lra.
Qed.

Lemma correlation_defined (pts : list (R * R)) :
  correlation pts <> None <-> denominator pts <> 0.
Proof.
  unfold correlation.
  destruct (Req_EM_T (denominator pts) 0) as [E | E]; split; intros H.
  - exfalso. now apply H.
  - contradiction.
  - exact E.
  - discriminate.
Qed.

Theorem correlation_bounded (pts : list (R * R)) (r : R) :
  correlation pts = Some r -> -1 <= r <= 1.
Proof.
  unfold correlation.
  destruct (Req_EM_T (denominator pts) 0) as [E | Hne]; intros Hr;
    [discriminate Hr |].
  injection Hr as <-. revert Hne.
  destruct (cauchy_schwarz pts) as [HA [HB HC]].
  unfold denominator.
  set (A := spread fst pts) in *. set (B := spread snd pts) in *.
  set (C := numerator pts) in *.
  assert (HAB : 0 <= A * B) by nra.
  pose proof (sqrt_pos (A * B)) as HD.
  pose proof (sqrt_sqrt (A * B) HAB) as HDD.
  set (D := sqrt (A * B)) in *.
  intros Hne.
  assert (Hpos : 0 < D) by lra.
  assert (- D <= C <= D) by nra.
  split.
  - apply Rmult_le_reg_r with D; [exact Hpos |].
    unfold Rdiv. rewrite Rmult_assoc, Rinv_l by lra. lra.
  - apply Rmult_le_reg_r with D; [exact Hpos |].
    unfold Rdiv. rewrite Rmult_assoc, Rinv_l by lra. lra.
Qed.

End ExactFacts.

(** ** The range of the computed coefficient *)

(** The real number of a [Number], on two examples. *)
Example real_of_examples :
  (Exact.real_of (JS.of_Z (-7)) = -7 /\ Exact.real_of (JS.decimal 25 1) = 5 / 2)%R.
Proof.
  split.
  - vm_compute (JS.of_Z (-7)). unfold Exact.real_of.
    vm_compute (Format.magnitude _ _). cbv iota beta.
    vm_compute (cond_Zopp _ _). lra.
  - vm_compute (JS.decimal 25 1). unfold Exact.real_of.
    vm_compute (Format.magnitude _ _). cbv iota beta.
    vm_compute (cond_Zopp _ _). lra.
Qed.

(** C5 as stated fails.  The three points (0,0), (0.1,0.3), (0.3,0.9) have
    finite coordinates and pass both guards, and the coefficient returned is
    [1 + 2^-52], above 1.  The three points (-9.98,1), (-9.98,2), (-9.98,4)
    do too, and the coefficient returned is NaN. *)
Lemma coefficient_range_counterexample :
  ((3 <= List.length steep_points)%nat /\
   forallb finite_point steep_points = true /\
   passes_guards steep_points = true /\
   CorrelationResult.correlation (calculateCorrelation steep_points)
     = Some (S754_finite false 4503599627370497 (-52)) /\
   JS.gt (S754_finite false 4503599627370497 (-52)) (JS.of_Z 1) = true /\
   in_unit_interval (S754_finite false 4503599627370497 (-52)) = false) /\
  ((3 <= List.length column_points)%nat /\
   forallb finite_point column_points = true /\
   passes_guards column_points = true /\
   CorrelationResult.correlation (calculateCorrelation column_points)
     = Some JS.NaN /\
   in_unit_interval JS.NaN = false).
Proof.
  split.
  - split; [simpl; lia |]. repeat split; vm_compute; reflexivity.
  - split; [simpl; lia |]. repeat split; vm_compute; reflexivity.
Qed.

(** The real numbers of small whole numbers. *)
Lemma real_of_small (k : Z) :
  (0 <= k < 8)%Z -> Exact.real_of (JS.of_Z k) = IZR k.
Proof.
  intros Hk.
  assert (H : (k = 0 \/ k = 1 \/ k = 2 \/ k = 3 \/ k = 4 \/ k = 5 \/ k = 6 \/ k = 7)%Z)
    by lia.
  destruct H as [-> | [-> | [-> | [-> | [-> | [-> | [-> | ->]]]]]]];
    [reflexivity | ..];
    match goal with
    | |- Exact.real_of ?a = _ => vm_compute a
    end;
    unfold Exact.real_of; vm_compute (Format.magnitude _ _); cbv iota beta;
    vm_compute (cond_Zopp _ _); lra.
Qed.

Lemma diagonal_exact_points :
  map Exact.real_point diagonal_points = [(0, 0); (1, 1); (2, 2)]%R.
Proof.
  unfold diagonal_points. cbn [map]. unfold Exact.real_point. cbn [x y].
  now rewrite (real_of_small 0), (real_of_small 1), (real_of_small 2) by lia.
Qed.

Lemma diagonal_exact_denominator :
  Exact.denominator (map Exact.real_point diagonal_points) = 6%R.
Proof.
  rewrite diagonal_exact_points.
  unfold Exact.denominator, Exact.spread, Exact.sum. cbn.
  replace ((1 + 1 + 1) * (0 + 0 * 0 + 1 * 1 + 2 * 2)
           - (0 + 0 + 1 + 2) * (0 + 0 + 1 + 2))%R with 6%R by lra.
  apply sqrt_square. lra.
Qed.

(** Three points above one another: the exact denominator is zero. *)
Lemma stacked_exact_denominator (a y1 y2 y3 : R) :
  Exact.denominator [(a, y1); (a, y2); (a, y3)] = 0%R.
Proof.
  unfold Exact.denominator, Exact.spread, Exact.sum. cbn.
  replace (((1 + 1 + 1) * (0 + a * a + a * a + a * a)
            - (0 + a + a + a) * (0 + a + a + a))
           * ((1 + 1 + 1) * (0 + y1 * y1 + y2 * y2 + y3 * y3)
              - (0 + y1 + y2 + y3) * (0 + y1 + y2 + y3)))%R with 0%R by ring.
  apply sqrt_0.
Qed.

(** The exact expression on two inputs: for (0,0), (1,1), (2,2) it is 1;
    for (-9.98,1), (-9.98,2), (-9.98,4), which pass both guards of the
    rounded computation, it does not exist. *)
Example exact_correlation_examples :
  Exact.correlation (map Exact.real_point diagonal_points) = Some 1%R /\
  Exact.correlation (map Exact.real_point column_points) = None.
Proof.
  split.
  - unfold Exact.correlation. rewrite diagonal_exact_denominator.
    destruct (Req_EM_T 6 0) as [E | _]; [lra |].
    f_equal. rewrite diagonal_exact_points.
    unfold Exact.numerator, Exact.sum. cbn. lra.
  - unfold column_points. cbn [map]. unfold Exact.real_point. cbn [x y].
    unfold Exact.correlation. rewrite stacked_exact_denominator.
    destruct (Req_EM_T 0 0) as [_ | E]; [reflexivity | now contradiction E].
Qed.

(** C5, amended: with at least three points of finite coordinates that pass
    both guards, the coefficient returned is the quotient
    [numerator / denominator] as the division rounds it, with nothing
    clamped; the range from -1 to 1 belongs to the same expression evaluated
    without rounding on the real values of the coordinates, which exists and
    lies in that range wherever its denominator is not zero. *)
Theorem coefficient_is_unclamped_quotient (points : list Point) :
  (3 <= List.length points)%nat ->
  forallb finite_point points = true ->
  passes_guards points = true ->
  CorrelationResult.correlation (calculateCorrelation points)
    = Some (JS.div (numerator points) (correlation_denominator points)) /\
  (Exact.denominator (map Exact.real_point points) <> 0%R ->
   exists r : R,
     Exact.correlation (map Exact.real_point points) = Some r /\
     (-1 <= r <= 1)%R).
Proof.
  intros Hlen _ Hpass. split.
  - now rewrite (correlation_of_many points Hlen), Hpass.
  - intros Hne.
    destruct (Exact.correlation (map Exact.real_point points)) as [r |] eqn:Hr.
    + exists r. split; [reflexivity |]. exact (correlation_bounded _ r Hr).
    + exfalso. apply (proj2 (correlation_defined _) Hne). exact Hr.
Qed.

Lemma coefficient_is_unclamped_quotient_witness :
  CorrelationResult.correlation (calculateCorrelation diagonal_points)
    = Some (JS.div (numerator diagonal_points)
                   (correlation_denominator diagonal_points)) /\
  exists r : R,
    Exact.correlation (map Exact.real_point diagonal_points) = Some r /\
    (-1 <= r <= 1)%R.
Proof.
  destruct (coefficient_is_unclamped_quotient diagonal_points) as [Hq Hr].
  - simpl. lia.
  - vm_compute. reflexivity.
  - vm_compute. reflexivity.
  - split; [exact Hq |].
    apply Hr. rewrite diagonal_exact_denominator. lra.
Defined.

(** ** Sequences of clicks and resets *)

Lemma reset_is_mounted (s : State) : reset s = mounted.
Proof. reflexivity. Qed.

Lemma act_fresh (a : Action) (s : State) : fresh s -> fresh (act a s).
Proof.
  intros H. destruct a as [e |]; simpl.
  - now apply click_fresh.
  - apply updateStatistics_fresh.
Qed.

(** Any property that holds once the component is mounted and that every
    action keeps holds after every sequence of actions. *)
Lemma runActions_invariant (I : State -> Prop) :
  I mounted ->
  (forall a s, I s -> I (act a s)) ->
  forall actions, I (runActions actions).
Proof.
  intros Hinit Hstep actions. unfold runActions.
  revert Hinit. generalize mounted.
  induction actions as [| a rest IH]; intros s Hs; simpl.
  - exact Hs.
  - apply IH. now apply Hstep.
Qed.

Lemma runActions_fresh (actions : list Action) : fresh (runActions actions).
Proof.
  apply runActions_invariant.
  - apply updateStatistics_fresh.
  - intros a s. apply act_fresh.
Qed.

(** What a click does to the list of points. *)
Lemma click_points (e : MouseEvent) (s : State) :
  points (click e s) =
    match handlePlotClick e (points s) with
    | Some ps => ps
    | None => points s
    end.
Proof.
  unfold click. now destruct (handlePlotClick e (points s)).
Qed.

Lemma handlePlotClick_some (e : MouseEvent) (ps ps' : list Point) :
  handlePlotClick e ps = Some ps' ->
  targetIsPoint e = false /\
  ps' = ps ++ [mkPoint (fst (clickCoordinates e)) (snd (clickCoordinates e))] /\
  Forall (fun p => same_place p (mkPoint (fst (clickCoordinates e))
                                         (snd (clickCoordinates e))) = false) ps.
Proof.
  rewrite handlePlotClick_eq. destruct (targetIsPoint e); [discriminate |].
  unfold insertPoint.
  set (x0 := fst (clickCoordinates e)). set (y0 := snd (clickCoordinates e)).
  destruct (existsb (fun p => JS.strict_eq (x p) x0 && JS.strict_eq (y p) y0) ps)
    eqn:Hex; simpl; [discriminate |].
  intros H. injection H as <-. repeat split.
  apply Forall_forall. intros p Hp.
  destruct (same_place p (mkPoint x0 y0)) eqn:Hsame; [| reflexivity].
  assert (Htrue : existsb (fun p => JS.strict_eq (x p) x0 && JS.strict_eq (y p) y0) ps = true).
  { apply existsb_exists. exists p. split; [exact Hp | exact Hsame]. }
  congruence.
Qed.

Lemma distinct_points_snoc (ps : list Point) (q : Point) :
  distinct_points ps ->
  Forall (fun p => same_place p q = false) ps ->
  distinct_points (ps ++ [q]).
Proof.
  unfold distinct_points. intros Hps Hq.
  induction Hps as [| p ps Hp Hrest IH]; simpl.
  - constructor; constructor.
  - inversion Hq as [| p' ps' Hpq Hq']; subst.
    constructor.
    + apply Forall_app. split; [exact Hp |]. constructor; [exact Hpq | constructor].
    + now apply IH.
Qed.

(** After any sequence of clicks and resets, no stored point is followed
    by one that the duplicate check would have taken for it: the stored
    points are pairwise different under [===] on both coordinates. *)
Theorem stored_points_distinct (actions : list Action) :
  distinct_points (points (runActions actions)).
Proof.
  apply (runActions_invariant (fun s => distinct_points (points s))).
  - constructor.
  - intros [e |] s Hs; simpl.
    + rewrite click_points.
      destruct (handlePlotClick e (points s)) as [ps |] eqn:Hclick; [| exact Hs].
      destruct (handlePlotClick_some e (points s) ps Hclick) as [_ [-> Hnew]].
      now apply distinct_points_snoc.
    + constructor.
Qed.

(** A click leaves the list of points as it is or appends one point, the
    click's coordinates, at its end; so over any further clicks the list
    only grows at its end, by at most one point per click. *)
Theorem clicks_only_append :
  (forall (e : MouseEvent) (s : State),
     points (click e s) = points s \/
     points (click e s)
       = points s ++ [mkPoint (fst (clickCoordinates e)) (snd (clickCoordinates e))]) /\
  (forall before after : list MouseEvent,
     exists added : list Point,
       points (run (before ++ after)) = points (run before) ++ added /\
       (List.length added <= List.length after)%nat).
Proof.
  assert (Hone : forall (e : MouseEvent) (s : State),
     points (click e s) = points s \/
     points (click e s)
       = points s ++ [mkPoint (fst (clickCoordinates e)) (snd (clickCoordinates e))]).
  { intros e s. rewrite click_points.
    destruct (handlePlotClick e (points s)) as [ps |] eqn:Hclick; [| now left].
    destruct (handlePlotClick_some e (points s) ps Hclick) as [_ [-> _]]. now right. }
  split; [exact Hone |].
  intros before after. unfold run. rewrite fold_left_app.
  generalize (fold_left (fun s e => click e s) before mounted).
  induction after as [| e rest IH]; intros s; simpl.
  - exists []. rewrite app_nil_r. split; [reflexivity | simpl; lia].
  - destruct (IH (click e s)) as [added [Heq Hlen]].
    destruct (Hone e s) as [Hsame | Happ].
    + exists added. rewrite Heq, Hsame. split; [reflexivity | lia].
    + exists (mkPoint (fst (clickCoordinates e)) (snd (clickCoordinates e)) :: added).
      rewrite Heq, Happ, <- app_assoc. split; [reflexivity | simpl; lia].
Qed.

(** ** What the page shows *)

Lemma digits_head (v : Z) :
  exists c t, Format.digits v = String c t /\ c <> "N"%char.
Proof.
  unfold Format.digits, NilZero.string_of_uint.
  destruct (N.to_uint (Z.to_N v)); simpl;
    eexists; eexists; (split; [reflexivity | discriminate]).
Qed.

Lemma length_append (s t : string) :
  String.length (s ++ t) = (String.length s + String.length t)%nat.
Proof. induction s as [| c s IH]; simpl; [reflexivity | now rewrite IH]. Qed.

Lemma length_zeros (k : nat) : String.length (Format.zeros k) = k.
Proof. induction k as [| k IH]; simpl; [reflexivity | now rewrite IH]. Qed.

Lemma place_point_head (n : Z) (f : nat) :
  exists c t, Format.place_point n f = String c t /\ c <> "N"%char.
Proof.
  unfold Format.place_point.
  destruct (digits_head n) as [c [t [Hd Hc]]].
  destruct f as [| f]; [now exists c, t |].
  set (m := (Format.zeros (S (S f) - String.length (Format.digits n))
             ++ Format.digits n)%string).
  assert (Hlen : (S (S f) <= String.length m)%nat).
  { unfold m. rewrite length_append, length_zeros. lia. }
  assert (Hhead : exists c' t', m = String c' t' /\ c' <> "N"%char).
  { unfold m.
    destruct (S (S f) - String.length (Format.digits n))%nat as [| k]; simpl.
    - now exists c, t.
    - eexists; eexists; split; [reflexivity | discriminate]. }
  destruct Hhead as [c' [t' [Hm Hc']]].
  rewrite Hm in *. simpl in Hlen.
  destruct (String.length (String c' t') - S f)%nat as [| j] eqn:Hj;
    [simpl in Hj; lia |].
  simpl. eexists; eexists; split; [reflexivity | exact Hc'].
Qed.

Lemma strip_zeros_head (c : ascii) (s : string) :
  Format.strip_zeros (String c s) = EmptyString \/
  exists t, Format.strip_zeros (String c s) = String c t.
Proof.
  simpl. destruct (Format.strip_zeros s).
  - destruct (Ascii.eqb c "0"); [now left | right; now eexists].
  - right. now eexists.
Qed.

Lemma exponential_head (a : JS.number) (v : Z) :
  exists c t, Format.exponential a v = String c t /\ c <> "N"%char.
Proof.
  unfold Format.exponential.
  destruct (digits_head (Format.shortest a v 1 (String.length (Format.digits v))))
    as [c [t [Hd Hc]]].
  rewrite Hd.
  destruct (strip_zeros_head c t) as [Hz | [t' Hz]]; rewrite Hz.
  - eexists; eexists; split; [reflexivity | discriminate].
  - destruct t'; simpl; eexists; eexists; (split; [reflexivity | exact Hc]).
Qed.

(** [toFixed] never produces the text [N/A]. *)
Lemma toFixed_not_NA (a : JS.number) (f : nat) :
  Format.toFixed a f <> "N/A"%string.
Proof.
  unfold Format.toFixed.
  destruct a as [s | s | | s m e].
  - destruct (place_point_head 0 f) as [c [t [-> Hc]]]. congruence.
  - destruct s; discriminate.
  - discriminate.
  - destruct (Format.magnitude m e) as [num den].
    destruct (Z.leb (10 ^ 21 * den) num).
    + destruct (exponential_head (S754_finite false m e) (num / den))
        as [c [t [-> Hc]]].
      destruct s; simpl; congruence.
    + destruct (place_point_head (Format.nearest_scaled num den f) f)
        as [c [t [-> Hc]]].
      destruct s; simpl; congruence.
Qed.

Lemma fresh_correlation (s : State) :
  fresh s ->
  correlation s = CorrelationResult.correlation (calculateCorrelation (points s)) /\
  calculationSteps s = CorrelationResult.steps (calculateCorrelation (points s)).
Proof.
  unfold fresh. intros H. split; now rewrite <- H at 1.
Qed.

Lemma steps_of_many (ps : list Point) :
  (3 <= List.length ps)%nat ->
  CorrelationResult.steps (calculateCorrelation ps)
    = if passes_guards ps
      then Some (CorrelationSteps.mk (count ps)
                   (Format.toFixed (sum_x ps) 2) (Format.toFixed (sum_y ps) 2)
                   (Format.toFixed (sum_xy ps) 2) (Format.toFixed (sum_xx ps) 2)
                   (Format.toFixed (sum_yy ps) 2)
                   (Format.toFixed (numerator ps) 2)
                   (Format.toFixed (correlation_denominator ps) 2))
      else None.
Proof.
  intros Hlen. rewrite (calculateCorrelation_eq ps Hlen). unfold passes_guards.
  destruct (has_y_variation ps); simpl; [| reflexivity].
  now destruct (JS.lt (JS.abs (correlation_denominator ps)) lit_0_0001).
Qed.

(** After any sequence of clicks and resets, the text after [Correlation:]
    is [N/A] exactly when fewer than three points are stored, and the
    numerator line is [N/A] exactly when fewer than three points are stored
    or one of the two guards fired. *)
Theorem not_available_texts (actions : list Action) :
  let s := runActions actions in
  (correlationText s = "N/A"%string <-> (List.length (points s) < 3)%nat) /\
  (numeratorText s = "N/A"%string <->
     (List.length (points s) < 3)%nat \/ passes_guards (points s) = false).
Proof.
  intros s.
  destruct (fresh_correlation _ (runActions_fresh actions)) as [Hc Hs].
  fold s in Hc, Hs. unfold correlationText, numeratorText. rewrite Hc, Hs.
  destruct (Nat.lt_ge_cases (List.length (points s)) 3) as [Hlt | Hge].
  - assert (Hb : (3 <=? List.length (points s))%nat = false)
      by (apply Nat.leb_gt; exact Hlt).
    rewrite Hb, (calculateCorrelation_few (points s) Hlt).
    cbn [CorrelationResult.correlation CorrelationResult.steps].
    split; split; auto.
  - assert (Hb : (3 <=? List.length (points s))%nat = true)
      by (apply Nat.leb_le; exact Hge).
    rewrite Hb, (correlation_of_many (points s) Hge), (steps_of_many (points s) Hge).
    split.
    + split; [| lia]. intros H. now apply toFixed_not_NA in H.
    + destruct (passes_guards (points s)); simpl.
      * split.
        -- intros H. now apply toFixed_not_NA in H.
        -- intros [H | H]; [lia | discriminate].
      * split; auto.
Qed.

(** ** Equality up to the sign of zero *)

Lemma same_number_refl a : same_number a a.
Proof. destruct a; simpl; auto. Qed.

Lemma same_number_sym a b : same_number a b -> same_number b a.
Proof. destruct a, b; simpl; auto; discriminate. Qed.

Lemma same_number_trans a b c : same_number a b -> same_number b c -> same_number a c.
Proof. destruct a, b, c; simpl; auto; try discriminate; congruence. Qed.

#[global] Instance same_number_equivalence : Equivalence same_number.
Proof.
  split.
  - exact same_number_refl.
  - exact same_number_sym.
  - exact same_number_trans.
Qed.

Lemma same_number_cases a b :
  same_number a b -> a = b \/ (exists s t, a = S754_zero s /\ b = S754_zero t).
Proof.
  destruct a, b; simpl; intros H; try (left; exact H); try discriminate.
  right. eauto.
Qed.

Ltac split_same H :=
  let s := fresh "s" in let t := fresh "t" in
  destruct (same_number_cases _ _ H) as [-> | [s [t [-> ->]]]].


Ltac destruct_bools :=
  repeat match goal with s : bool |- _ => destruct s end.

Ltac same_by_cases :=
  let a := fresh "a" in let a' := fresh "a'" in
  let b := fresh "b" in let b' := fresh "b'" in
  let Ha := fresh "Ha" in let Hb := fresh "Hb" in
  intros a a' Ha b b' Hb;
  destruct a, a'; simpl in Ha; try discriminate Ha;
  try (inversion Ha; subst; clear Ha);
  destruct b, b'; simpl in Hb; try discriminate Hb;
  try (inversion Hb; subst; clear Hb);
  try apply same_number_refl;
  destruct_bools; simpl; auto.

#[global] Instance add_proper : Proper (same_number ==> same_number ==> same_number) JS.add.
Proof. same_by_cases. Qed.

#[global] Instance sub_proper : Proper (same_number ==> same_number ==> same_number) JS.sub.
Proof. same_by_cases. Qed.

#[global] Instance mul_proper : Proper (same_number ==> same_number ==> same_number) JS.mul.
Proof. same_by_cases. Qed.

#[global] Instance div_proper : Proper (same_number ==> eq ==> same_number) JS.div.
Proof.
  intros a a' Ha b b' <-.
  destruct a, a'; simpl in Ha; try discriminate Ha;
  try (inversion Ha; subst; clear Ha);
  try apply same_number_refl; destruct b; destruct_bools; simpl; auto.
Qed.

#[global] Instance abs_proper : Proper (same_number ==> eq) JS.abs.
Proof.
  intros a a' Ha.
  destruct a, a'; simpl in Ha; try discriminate Ha;
  try (inversion Ha; subst; clear Ha); reflexivity.
Qed.

#[global] Instance neg_proper : Proper (same_number ==> same_number) JS.neg.
Proof.
  intros a a' Ha.
  destruct a, a'; simpl in Ha; try discriminate Ha;
  try (inversion Ha; subst; clear Ha); simpl; auto.
Qed.

#[global] Instance sqrt_proper : Proper (same_number ==> same_number) JS.sqrt.
Proof.
  intros a a' Ha.
  destruct a, a'; simpl in Ha; try discriminate Ha;
  try (inversion Ha; subst; clear Ha); try apply same_number_refl; simpl; auto.
Qed.

#[global] Instance lt_proper : Proper (same_number ==> same_number ==> eq) JS.lt.
Proof.
  intros a a' Ha b b' Hb.
  destruct a, a'; simpl in Ha; try discriminate Ha;
  try (inversion Ha; subst; clear Ha);
  destruct b, b'; simpl in Hb; try discriminate Hb;
  try (inversion Hb; subst; clear Hb); reflexivity.
Qed.

#[global] Instance gt_proper : Proper (same_number ==> same_number ==> eq) JS.gt.
Proof. intros a a' Ha b b' Hb. unfold JS.gt. now apply lt_proper. Qed.

#[global] Instance strict_eq_proper :
  Proper (same_number ==> same_number ==> eq) JS.strict_eq.
Proof.
  intros a a' Ha b b' Hb.
  destruct a, a'; simpl in Ha; try discriminate Ha;
  try (inversion Ha; subst; clear Ha);
  destruct b, b'; simpl in Hb; try discriminate Hb;
  try (inversion Hb; subst; clear Hb); reflexivity.
Qed.

(** Negation commutes with rounding. *)
Lemma binary_round_aux_negb (s : bool) (m e : Z) (l : location) :
  binary_round_aux JS.prec JS.emax (negb s) m e l
  = SFopp (binary_round_aux JS.prec JS.emax s m e l).
Proof.
  unfold binary_round_aux.
  destruct (shr_fexp JS.prec JS.emax m e l) as [mrs e'].
  destruct (shr_fexp JS.prec JS.emax
              (round_nearest_even (shr_m mrs) (loc_of_shr_record mrs)) e' loc_Exact)
    as [mrs' e''].
  destruct (shr_m mrs'); try reflexivity.
  now destruct (Z.leb e'' (JS.emax - JS.prec)).
Qed.

Lemma binary_normalize_opp (z e : Z) :
  same_number (binary_normalize JS.prec JS.emax (- z) e false)
              (SFopp (binary_normalize JS.prec JS.emax z e false)).
Proof.
  destruct z as [| p | p]; simpl.
  - exact I.
  - unfold binary_round.
    destruct (shl_align p e (fexp JS.prec JS.emax (Z.pos (digits2_pos p) + e))) as [mz ez].
    rewrite <- binary_round_aux_negb. apply same_number_refl.
  - unfold binary_round.
    destruct (shl_align p e (fexp JS.prec JS.emax (Z.pos (digits2_pos p) + e))) as [mz ez].
    change true with (negb false).
    rewrite binary_round_aux_negb.
    destruct (binary_round_aux JS.prec JS.emax false (Z.pos mz) ez loc_Exact)
      as [s | s | | s m e']; try destruct s; simpl; auto.
Qed.

Lemma cond_Zopp_negb (s : bool) (z : Z) :
  cond_Zopp (negb s) z = (- cond_Zopp s z)%Z.
Proof. destruct s; simpl; lia. Qed.

Lemma neg_neg (a : JS.number) : JS.neg (JS.neg a) = a.
Proof. destruct a as [s | s | | s m e]; simpl; try reflexivity; now rewrite negb_involutive. Qed.

Lemma abs_neg (a : JS.number) : JS.abs (JS.neg a) = JS.abs a.
Proof. now destruct a. Qed.

Lemma mul_neg_l (a b : JS.number) : JS.mul (JS.neg a) b = JS.neg (JS.mul a b).
Proof.
  destruct a as [sa | sa | | sa ma ea], b as [sb | sb | | sb mb eb]; simpl;
    try reflexivity; try (now destruct sa, sb).
  rewrite <- binary_round_aux_negb. now destruct sa, sb.
Qed.

Lemma mul_neg_r (a b : JS.number) : JS.mul a (JS.neg b) = JS.neg (JS.mul a b).
Proof.
  destruct a as [sa | sa | | sa ma ea], b as [sb | sb | | sb mb eb]; simpl;
    try reflexivity; try (now destruct sa, sb).
  rewrite <- binary_round_aux_negb. now destruct sa, sb.
Qed.

Lemma div_neg_l (a b : JS.number) : JS.div (JS.neg a) b = JS.neg (JS.div a b).
Proof.
  destruct a as [sa | sa | | sa ma ea], b as [sb | sb | | sb mb eb]; simpl;
    try reflexivity; try (now destruct sa, sb).
  destruct (SFdiv_core_binary JS.prec JS.emax (Z.pos ma) ea (Z.pos mb) eb) as [[mz ez] lz].
  rewrite <- binary_round_aux_negb. now destruct sa, sb.
Qed.

Lemma add_neg (a b : JS.number) :
  same_number (JS.add (JS.neg a) (JS.neg b)) (JS.neg (JS.add a b)).
Proof.
  destruct a as [sa | sa | | sa ma ea], b as [sb | sb | | sb mb eb]; simpl;
    try exact I; try reflexivity; try (now destruct sa, sb).
  rewrite !cond_Zopp_negb, <- Z.opp_add_distr.
  apply binary_normalize_opp.
Qed.

Lemma sub_neg (a b : JS.number) :
  same_number (JS.sub (JS.neg a) (JS.neg b)) (JS.neg (JS.sub a b)).
Proof.
  destruct a as [sa | sa | | sa ma ea], b as [sb | sb | | sb mb eb]; simpl;
    try exact I; try reflexivity; try (now destruct sa, sb).
  rewrite !cond_Zopp_negb.
  replace (- cond_Zopp sa (Z.pos (fst (shl_align ma ea (Z.min ea eb))))
           - - cond_Zopp sb (Z.pos (fst (shl_align mb eb (Z.min ea eb)))))%Z
    with (- (cond_Zopp sa (Z.pos (fst (shl_align ma ea (Z.min ea eb))))
             - cond_Zopp sb (Z.pos (fst (shl_align mb eb (Z.min ea eb))))))%Z by lia.
  apply binary_normalize_opp.
Qed.

Lemma mul_comm (a b : JS.number) : JS.mul a b = JS.mul b a.
Proof.
  destruct a as [sa | sa | | sa ma ea], b as [sb | sb | | sb mb eb]; simpl;
    try reflexivity; try (now destruct sa, sb).
  now rewrite (xorb_comm sa sb), (Pos.mul_comm ma mb), (Z.add_comm ea eb).
Qed.

(** ** The sums of reflected and transposed points *)

Section Folds.

Variables (f g : Point -> JS.number) (h : Point -> Point).

Lemma reduce_sum_map_eq (ps : list Point) :
  (forall p, f (h p) = g p) ->
  reduce_sum f (map h ps) = reduce_sum g ps.
Proof.
  intros H. unfold reduce_sum. generalize lit_0.
  induction ps as [| p ps IH]; intros acc; simpl; [reflexivity |].
  now rewrite H, IH.
Qed.

Lemma reduce_sum_map_neg (ps : list Point) :
  (forall p, f (h p) = JS.neg (g p)) ->
  same_number (reduce_sum f (map h ps)) (JS.neg (reduce_sum g ps)).
Proof.
  intros H. unfold reduce_sum.
  assert (Hzero : same_number lit_0 (JS.neg lit_0)) by exact I.
  revert Hzero. generalize lit_0 at 1 3. generalize lit_0.
  induction ps as [| p ps IH]; intros acc acc' Hacc; simpl; [exact Hacc |].
  apply IH. rewrite H, Hacc. apply add_neg.
Qed.

End Folds.

Lemma square_of_negated (a b : JS.number) :
  same_number a (JS.neg b) -> JS.mul a a = JS.mul b b.
Proof.
  intros H. destruct (same_number_cases _ _ H) as [-> | [s [t [-> Hb]]]].
  - now rewrite mul_neg_l, mul_neg_r, neg_neg.
  - destruct b as [sb | sb | | sb mb eb]; try discriminate Hb.
    simpl. now destruct s, sb.
Qed.

Lemma existsb_map_eq (f g : Point -> bool) (h : Point -> Point) (ps : list Point) :
  (forall p, f (h p) = g p) -> existsb f (map h ps) = existsb g ps.
Proof.
  intros H. induction ps as [| p ps IH]; simpl; [reflexivity |].
  now rewrite H, IH.
Qed.

Section MirrorY.

Variable ps : list Point.

Lemma mirror_y_count : count (map mirror_y ps) = count ps.
Proof. unfold count. now rewrite length_map. Qed.

Lemma mirror_y_sum_x : sum_x (map mirror_y ps) = sum_x ps.
Proof. now apply reduce_sum_map_eq. Qed.

Lemma mirror_y_sum_xx : sum_xx (map mirror_y ps) = sum_xx ps.
Proof. now apply reduce_sum_map_eq. Qed.

Lemma mirror_y_sum_yy : sum_yy (map mirror_y ps) = sum_yy ps.
Proof.
  apply reduce_sum_map_eq. intros p. simpl.
  now rewrite mul_neg_l, mul_neg_r, neg_neg.
Qed.

Lemma mirror_y_sum_y : same_number (sum_y (map mirror_y ps)) (JS.neg (sum_y ps)).
Proof. now apply reduce_sum_map_neg. Qed.

Lemma mirror_y_sum_xy : same_number (sum_xy (map mirror_y ps)) (JS.neg (sum_xy ps)).
Proof. apply reduce_sum_map_neg. intros p. simpl. apply mul_neg_r. Qed.

Lemma mirror_y_mean : same_number (y_mean (map mirror_y ps)) (JS.neg (y_mean ps)).
Proof.
  unfold y_mean. rewrite mirror_y_sum_y, mirror_y_count, div_neg_l. reflexivity.
Qed.

Lemma mirror_y_variation : has_y_variation (map mirror_y ps) = has_y_variation ps.
Proof.
  unfold has_y_variation. apply existsb_map_eq. intros p. simpl.
  rewrite mirror_y_mean, sub_neg, abs_neg. reflexivity.
Qed.

Lemma mirror_y_numerator : same_number (numerator (map mirror_y ps)) (JS.neg (numerator ps)).
Proof.
  unfold numerator.
  rewrite mirror_y_count, mirror_y_sum_x, mirror_y_sum_xy, mirror_y_sum_y.
  rewrite !mul_neg_r. apply sub_neg.
Qed.

Lemma mirror_y_correlation_denominator :
  correlation_denominator (map mirror_y ps) = correlation_denominator ps.
Proof.
  unfold correlation_denominator.
  rewrite mirror_y_count, mirror_y_sum_x, mirror_y_sum_xx, mirror_y_sum_yy.
  now rewrite (square_of_negated _ _ mirror_y_sum_y).
Qed.

Lemma mirror_y_regression_denominator :
  regression_denominator (map mirror_y ps) = regression_denominator ps.
Proof.
  unfold regression_denominator.
  now rewrite mirror_y_count, mirror_y_sum_x, mirror_y_sum_xx.
Qed.

End MirrorY.

Section MirrorX.

Variable ps : list Point.

Lemma mirror_x_count : count (map mirror_x ps) = count ps.
Proof. unfold count. now rewrite length_map. Qed.

Lemma mirror_x_sum_y : sum_y (map mirror_x ps) = sum_y ps.
Proof. now apply reduce_sum_map_eq. Qed.

Lemma mirror_x_sum_yy : sum_yy (map mirror_x ps) = sum_yy ps.
Proof. now apply reduce_sum_map_eq. Qed.

Lemma mirror_x_sum_xx : sum_xx (map mirror_x ps) = sum_xx ps.
Proof.
  apply reduce_sum_map_eq. intros p. simpl.
  now rewrite mul_neg_l, mul_neg_r, neg_neg.
Qed.

Lemma mirror_x_sum_x : same_number (sum_x (map mirror_x ps)) (JS.neg (sum_x ps)).
Proof. now apply reduce_sum_map_neg. Qed.

Lemma mirror_x_sum_xy : same_number (sum_xy (map mirror_x ps)) (JS.neg (sum_xy ps)).
Proof. apply reduce_sum_map_neg. intros p. simpl. apply mul_neg_l. Qed.

Lemma mirror_x_variation : has_y_variation (map mirror_x ps) = has_y_variation ps.
Proof.
  unfold has_y_variation, y_mean. rewrite mirror_x_sum_y, mirror_x_count.
  now apply existsb_map_eq.
Qed.

Lemma mirror_x_numerator :
  same_number (numerator (map mirror_x ps)) (JS.neg (numerator ps)).
Proof.
  unfold numerator.
  rewrite mirror_x_count, mirror_x_sum_y, mirror_x_sum_xy, mirror_x_sum_x.
  rewrite mul_neg_r, mul_neg_l. apply sub_neg.
Qed.

Lemma mirror_x_regression_denominator :
  regression_denominator (map mirror_x ps) = regression_denominator ps.
Proof.
  unfold regression_denominator.
  rewrite mirror_x_count, mirror_x_sum_xx.
  now rewrite (square_of_negated _ _ mirror_x_sum_x).
Qed.

Lemma mirror_x_correlation_denominator :
  correlation_denominator (map mirror_x ps) = correlation_denominator ps.
Proof.
  unfold correlation_denominator.
  rewrite mirror_x_count, mirror_x_sum_y, mirror_x_sum_xx, mirror_x_sum_yy.
  now rewrite (square_of_negated _ _ mirror_x_sum_x).
Qed.

End MirrorX.

(** ** Reflections and transposition *)

Lemma coefficient_of_negated (ps qs : list Point) :
  List.length qs = List.length ps ->
  has_y_variation qs = has_y_variation ps ->
  correlation_denominator qs = correlation_denominator ps ->
  same_number (numerator qs) (JS.neg (numerator ps)) ->
  same_coefficient
    (CorrelationResult.correlation (calculateCorrelation qs))
    (option_map JS.neg (CorrelationResult.correlation (calculateCorrelation ps))).
Proof.
  intros Hlen Hvar Hden Hnum.
  destruct (Nat.lt_ge_cases (List.length ps) 3) as [Hlt | Hge].
  - rewrite (calculateCorrelation_few ps Hlt).
    rewrite (calculateCorrelation_few qs) by (rewrite Hlen; exact Hlt).
    exact I.
  - rewrite (correlation_of_many ps Hge).
    rewrite (correlation_of_many qs) by (rewrite Hlen; exact Hge).
    unfold passes_guards. rewrite Hvar, Hden.
    destruct (has_y_variation ps &&
              negb (JS.lt (JS.abs (correlation_denominator ps)) lit_0_0001))%bool;
      simpl.
    + rewrite Hnum, div_neg_l. reflexivity.
    + exact I.
Qed.

Lemma guard_result_of_negated (ps qs : list Point) :
  List.length qs = List.length ps ->
  has_y_variation qs = has_y_variation ps ->
  correlation_denominator qs = correlation_denominator ps ->
  passes_guards qs = passes_guards ps /\
  (calculateCorrelation qs = CorrelationResult.mk (Some lit_0) None <->
   calculateCorrelation ps = CorrelationResult.mk (Some lit_0) None).
Proof.
  intros Hlen Hvar Hden.
  split; [unfold passes_guards; now rewrite Hvar, Hden |].
  destruct (Nat.lt_ge_cases (List.length ps) 3) as [Hlt | Hge].
  - rewrite (calculateCorrelation_few ps Hlt).
    rewrite (calculateCorrelation_few qs) by (rewrite Hlen; exact Hlt).
    reflexivity.
  - rewrite (calculateCorrelation_eq ps Hge).
    rewrite (calculateCorrelation_eq qs) by (rewrite Hlen; exact Hge).
    rewrite Hvar, Hden.
    destruct (has_y_variation ps); cbn [negb]; [| reflexivity].
    destruct (JS.lt (JS.abs (correlation_denominator ps)) lit_0_0001);
      [reflexivity |].
    split; intros H; discriminate H.
Qed.

(** Reflecting the points in either axis negates the correlation
    coefficient, in binary64 as it stands, up to the sign of zero.  The
    coefficient is null for the reflected points exactly when it is for the
    points, the two guards pass or fire together, and the result is the
    guards' [{ correlation: 0, steps: null }] for the reflected points
    exactly when it is for the points. *)
Theorem correlation_of_mirrored (ps : list Point) :
  (same_coefficient
     (CorrelationResult.correlation (calculateCorrelation (map mirror_y ps)))
     (option_map JS.neg (CorrelationResult.correlation (calculateCorrelation ps))) /\
   passes_guards (map mirror_y ps) = passes_guards ps /\
   (calculateCorrelation (map mirror_y ps) = CorrelationResult.mk (Some lit_0) None <->
    calculateCorrelation ps = CorrelationResult.mk (Some lit_0) None)) /\
  (same_coefficient
     (CorrelationResult.correlation (calculateCorrelation (map mirror_x ps)))
     (option_map JS.neg (CorrelationResult.correlation (calculateCorrelation ps))) /\
   passes_guards (map mirror_x ps) = passes_guards ps /\
   (calculateCorrelation (map mirror_x ps) = CorrelationResult.mk (Some lit_0) None <->
    calculateCorrelation ps = CorrelationResult.mk (Some lit_0) None)).
Proof.
  split.
  - split.
    + apply coefficient_of_negated.
      * apply length_map.
      * apply mirror_y_variation.
      * apply mirror_y_correlation_denominator.
      * apply mirror_y_numerator.
    + apply guard_result_of_negated.
      * apply length_map.
      * apply mirror_y_variation.
      * apply mirror_y_correlation_denominator.
  - split.
    + apply coefficient_of_negated.
      * apply length_map.
      * apply mirror_x_variation.
      * apply mirror_x_correlation_denominator.
      * apply mirror_x_numerator.
    + apply guard_result_of_negated.
      * apply length_map.
      * apply mirror_x_variation.
      * apply mirror_x_correlation_denominator.
Qed.

Lemma mirrored_slopes (ps : list Point) :
  same_number (regression_slope (map mirror_y ps)) (JS.neg (regression_slope ps)) /\
  same_number (regression_slope (map mirror_x ps)) (JS.neg (regression_slope ps)).
Proof.
  unfold regression_slope. split.
  - rewrite mirror_y_regression_denominator, mirror_y_numerator, div_neg_l.
    reflexivity.
  - rewrite mirror_x_regression_denominator, mirror_x_numerator, div_neg_l.
    reflexivity.
Qed.

Lemma mirrored_x_line (ps : list Point) :
  same_line
    (RegressionResult.line (calculateRegression (map mirror_x ps)))
    (option_map (fun l => mkLine (JS.neg (slope l)) (intercept l))
                (RegressionResult.line (calculateRegression ps))).
Proof.
  destruct (Nat.lt_ge_cases (List.length ps) 3) as [Hlt | Hge].
  - rewrite (calculateRegression_few ps Hlt).
    rewrite calculateRegression_few by (rewrite length_map; exact Hlt).
    exact I.
  - rewrite (calculateRegression_eq ps Hge).
    rewrite calculateRegression_eq by (rewrite length_map; exact Hge).
    rewrite mirror_x_regression_denominator.
    destruct (JS.strict_eq (regression_denominator ps) lit_0); simpl; [exact I |].
    destruct (mirrored_slopes ps) as [_ Hsx].
    split; [exact Hsx |].
    unfold regression_intercept.
    rewrite Hsx, mirror_x_sum_x, mirror_x_sum_y, mirror_x_count.
    rewrite mul_neg_l, mul_neg_r, neg_neg. reflexivity.
Qed.

(** Reflecting the points in the x axis ([y] becomes [-y]) negates the
    slope and the intercept of the regression line; reflecting them in the
    y axis ([x] becomes [-x]) negates the slope and keeps the intercept.
    Both hold in binary64 as they stand, up to the sign of zero, and the line
    is null for the reflected points exactly when it is for the points. *)
Theorem regression_of_mirrored (ps : list Point) :
  same_line
    (RegressionResult.line (calculateRegression (map mirror_y ps)))
    (option_map (fun l => mkLine (JS.neg (slope l)) (JS.neg (intercept l)))
                (RegressionResult.line (calculateRegression ps))) /\
  same_line
    (RegressionResult.line (calculateRegression (map mirror_x ps)))
    (option_map (fun l => mkLine (JS.neg (slope l)) (intercept l))
                (RegressionResult.line (calculateRegression ps))).
Proof.
  split; [| exact (mirrored_x_line ps)].
  destruct (Nat.lt_ge_cases (List.length ps) 3) as [Hlt | Hge].
  - rewrite (calculateRegression_few ps Hlt).
    rewrite calculateRegression_few by (rewrite length_map; exact Hlt).
    exact I.
  - rewrite (calculateRegression_eq ps Hge).
    rewrite calculateRegression_eq by (rewrite length_map; exact Hge).
    rewrite mirror_y_regression_denominator.
    destruct (JS.strict_eq (regression_denominator ps) lit_0); simpl; [exact I |].
    destruct (mirrored_slopes ps) as [Hsy _].
    split; [exact Hsy |].
    unfold regression_intercept.
    rewrite Hsy, mirror_y_sum_y, mirror_y_sum_x, mirror_y_count.
    rewrite mul_neg_l, sub_neg, div_neg_l. reflexivity.
Qed.

Section Transpose.

Variable ps : list Point.

Lemma transpose_count : count (map transpose ps) = count ps.
Proof. unfold count. now rewrite length_map. Qed.

Lemma transpose_sum_x : sum_x (map transpose ps) = sum_y ps.
Proof. now apply reduce_sum_map_eq. Qed.

Lemma transpose_sum_y : sum_y (map transpose ps) = sum_x ps.
Proof. now apply reduce_sum_map_eq. Qed.

Lemma transpose_sum_xx : sum_xx (map transpose ps) = sum_yy ps.
Proof. now apply reduce_sum_map_eq. Qed.

Lemma transpose_sum_yy : sum_yy (map transpose ps) = sum_xx ps.
Proof. now apply reduce_sum_map_eq. Qed.

Lemma transpose_sum_xy : sum_xy (map transpose ps) = sum_xy ps.
Proof. apply reduce_sum_map_eq. intros p. simpl. apply mul_comm. Qed.

Lemma transpose_numerator : numerator (map transpose ps) = numerator ps.
Proof.
  unfold numerator.
  rewrite transpose_count, transpose_sum_x, transpose_sum_y, transpose_sum_xy.
  now rewrite (mul_comm (sum_y ps) (sum_x ps)).
Qed.

Lemma transpose_correlation_denominator :
  correlation_denominator (map transpose ps) = correlation_denominator ps.
Proof.
  unfold correlation_denominator.
  rewrite transpose_count, transpose_sum_x, transpose_sum_y,
    transpose_sum_xx, transpose_sum_yy.
  now rewrite mul_comm.
Qed.

End Transpose.

(** Exchanging [x] and [y] leaves the coefficient unchanged, bit for bit,
    whenever both the points and the exchanged points have y-variation; the
    guard on y alone makes the function asymmetric otherwise: the three
    points with [x = -9.98] give NaN, and exchanged they give 0. *)
Theorem correlation_of_transposed :
  (forall ps : list Point,
     has_y_variation ps = true ->
     has_y_variation (map transpose ps) = true ->
     CorrelationResult.correlation (calculateCorrelation (map transpose ps))
       = CorrelationResult.correlation (calculateCorrelation ps)) /\
  (CorrelationResult.correlation (calculateCorrelation column_points) = Some JS.NaN /\
   CorrelationResult.correlation (calculateCorrelation (map transpose column_points))
     = Some lit_0).
Proof.
  split.
  - intros ps Hy Hx.
    destruct (Nat.lt_ge_cases (List.length ps) 3) as [Hlt | Hge].
    + rewrite (calculateCorrelation_few ps Hlt).
      now rewrite calculateCorrelation_few by (rewrite length_map; exact Hlt).
    + rewrite (correlation_of_many ps Hge).
      rewrite correlation_of_many by (rewrite length_map; exact Hge).
      unfold passes_guards.
      now rewrite Hx, Hy, transpose_correlation_denominator, transpose_numerator.
  - split; vm_compute; reflexivity.
Qed.

Lemma correlation_of_transposed_witness :
  CorrelationResult.correlation (calculateCorrelation (map transpose steep_points))
    = CorrelationResult.correlation (calculateCorrelation steep_points).
Proof.
  apply (proj1 correlation_of_transposed steep_points).
  - vm_compute. reflexivity.
  - vm_compute. reflexivity.
Defined.

(** ** The signs of the coefficient and of the slope *)

(** The result of a rounding carries the sign it was given, or is NaN. *)
Lemma binary_round_aux_sign (s : bool) (m e : Z) (l : location) :
  let r := binary_round_aux JS.prec JS.emax s m e l in
  r = S754_zero s \/ r = S754_infinity s \/ r = S754_nan \/
  exists m' e', r = S754_finite s m' e'.
Proof.
  unfold binary_round_aux.
  destruct (shr_fexp JS.prec JS.emax m e l) as [mrs e'].
  destruct (shr_fexp JS.prec JS.emax
              (round_nearest_even (shr_m mrs) (loc_of_shr_record mrs)) e' loc_Exact)
    as [mrs' e''].
  destruct (shr_m mrs'); auto.
  destruct (Z.leb e'' (JS.emax - JS.prec)); eauto 6.
Qed.

Lemma quotient_not_positive (a b : JS.number) :
  JS.lt a lit_0 = true -> JS.gt b lit_0 = true ->
  JS.gt (JS.div a b) lit_0 = false.
Proof.
  destruct a as [sa | sa | | sa ma ea], b as [sb | sb | | sb mb eb];
    try destruct sa; try destruct sb; simpl; intros Ha Hb;
    try discriminate Ha; try discriminate Hb; try reflexivity.
  destruct (SFdiv_core_binary JS.prec JS.emax (Z.pos ma) ea (Z.pos mb) eb) as [[mz ez] lz].
  destruct (binary_round_aux_sign true mz ez lz) as [H | [H | [H | [m' [e' H]]]]];
    rewrite H; reflexivity.
Qed.

Lemma quotient_not_negative (a b : JS.number) :
  JS.gt a lit_0 = true -> JS.gt b lit_0 = true ->
  JS.lt (JS.div a b) lit_0 = false.
Proof.
  destruct a as [sa | sa | | sa ma ea], b as [sb | sb | | sb mb eb];
    try destruct sa; try destruct sb; simpl; intros Ha Hb;
    try discriminate Ha; try discriminate Hb; try reflexivity.
  destruct (SFdiv_core_binary JS.prec JS.emax (Z.pos ma) ea (Z.pos mb) eb) as [[mz ez] lz].
  destruct (binary_round_aux_sign false mz ez lz) as [H | [H | [H | [m' [e' H]]]]];
    rewrite H; reflexivity.
Qed.

(** A negative quotient by a square root that is not below the threshold
    has a negative numerator; likewise for a positive one. *)
Lemma sqrt_sign (a : JS.number) :
  JS.sqrt a = S754_nan \/ JS.sqrt a = S754_infinity false \/
  (exists s, JS.sqrt a = S754_zero s) \/
  exists m e, JS.sqrt a = S754_finite false m e.
Proof.
  destruct a as [s | s | | s m e]; simpl; eauto.
  - destruct s; auto.
  - destruct s; auto.
    destruct (SFsqrt_core_binary JS.prec JS.emax (Z.pos m) e) as [[mz ez] lz].
    destruct (binary_round_aux_sign false mz ez lz) as [H | [H | [H | [m' [e' H]]]]];
      rewrite H; eauto 6.
Qed.

Lemma numerator_negative (a d : JS.number) :
  JS.lt (JS.div a (JS.sqrt d)) lit_0 = true ->
  JS.lt (JS.abs (JS.sqrt d)) lit_0_0001 = false ->
  JS.lt a lit_0 = true.
Proof.
  rewrite lit_0_0001_value.
  destruct (sqrt_sign d) as [H | [H | [[s H] | [m [e H]]]]]; rewrite H; clear H.
  - destruct a as [sa | sa | | sa ma ea]; simpl; discriminate.
  - destruct a as [sa | sa | | sa ma ea]; try destruct sa; simpl; try discriminate; auto.
  - destruct s; simpl; discriminate.
  - destruct a as [sa | sa | | sa ma ea]; try destruct sa; simpl; try discriminate; auto.
    destruct (SFdiv_core_binary JS.prec JS.emax (Z.pos ma) ea (Z.pos m) e) as [[mz ez] lz].
    destruct (binary_round_aux_sign false mz ez lz) as [H | [H | [H | [m' [e' H]]]]];
      rewrite H; discriminate.
Qed.

Lemma numerator_positive (a d : JS.number) :
  JS.gt (JS.div a (JS.sqrt d)) lit_0 = true ->
  JS.lt (JS.abs (JS.sqrt d)) lit_0_0001 = false ->
  JS.gt a lit_0 = true.
Proof.
  rewrite lit_0_0001_value.
  destruct (sqrt_sign d) as [H | [H | [[s H] | [m [e H]]]]]; rewrite H; clear H.
  - destruct a as [sa | sa | | sa ma ea]; simpl; discriminate.
  - destruct a as [sa | sa | | sa ma ea]; try destruct sa; simpl; try discriminate; auto.
  - destruct s; simpl; discriminate.
  - destruct a as [sa | sa | | sa ma ea]; try destruct sa; simpl; try discriminate; auto.
    destruct (SFdiv_core_binary JS.prec JS.emax (Z.pos ma) ea (Z.pos m) e) as [[mz ez] lz].
    destruct (binary_round_aux_sign true mz ez lz) as [H | [H | [H | [m' [e' H]]]]];
      rewrite H; discriminate.
Qed.

Lemma positive_not_zero (d : JS.number) :
  JS.gt d lit_0 = true -> JS.strict_eq d lit_0 = false.
Proof.
  destruct d as [s | s | | s m e]; try destruct s; simpl; intros H;
    try discriminate H; reflexivity.
Qed.

(** When [n * sumXSquare - sumX * sumX] is positive, the coefficient and the
    slope never have opposite signs: a negative coefficient comes with a
    slope that is not positive, and a positive one with a slope that is not
    negative. *)
Theorem slope_and_coefficient_signs (ps : list Point) (r : JS.number) (l : Line) :
  (3 <= List.length ps)%nat ->
  JS.gt (regression_denominator ps) lit_0 = true ->
  CorrelationResult.correlation (calculateCorrelation ps) = Some r ->
  RegressionResult.line (calculateRegression ps) = Some l ->
  (JS.lt r lit_0 = true -> JS.gt (slope l) lit_0 = false) /\
  (JS.gt r lit_0 = true -> JS.lt (slope l) lit_0 = false).
Proof.
  intros Hlen Hpos Hr Hl.
  rewrite (correlation_of_many ps Hlen) in Hr.
  rewrite (calculateRegression_eq ps Hlen), (positive_not_zero _ Hpos) in Hl.
  injection Hr as <-. injection Hl as <-. simpl slope.
  unfold passes_guards.
  destruct (has_y_variation ps); simpl; [| split; discriminate].
  destruct (JS.lt (JS.abs (correlation_denominator ps)) lit_0_0001) eqn:Hguard;
    simpl; [split; discriminate |].
  unfold correlation_denominator in *. unfold regression_slope. split; intros Hsign.
  - apply quotient_not_positive; [| exact Hpos].
    exact (numerator_negative _ _ Hsign Hguard).
  - apply quotient_not_negative; [| exact Hpos].
    exact (numerator_positive _ _ Hsign Hguard).
Qed.

Lemma slope_and_coefficient_signs_witness :
  JS.lt (S754_finite false 6755399441055746 (-51)) lit_0 = false.
Proof.
  refine (proj2 (slope_and_coefficient_signs steep_points
                   (S754_finite false 4503599627370497 (-52))
                   (mkLine (S754_finite false 6755399441055746 (-51))
                           (S754_finite true 6004799503160661 (-105)))
                   _ _ _ _) _).
  - simpl. lia.
  - vm_compute. reflexivity.
  - vm_compute. reflexivity.
  - vm_compute. reflexivity.
  - vm_compute. reflexivity.
Defined.

(** ** The coordinates of a click *)

Lemma clickCoordinates_snap (e : MouseEvent) :
  clickCoordinates e = (snap (rawX e), snap (rawY e)).
Proof. reflexivity. Qed.

Lemma Number_of_signed_text (s : bool) (n : Z) :
  (0 <= n <= 1000)%Z ->
  Parse.Number (signed_text s n) = grid_value s n.
Proof.
  intros Hn.
  assert (Hall : forall s', map (fun k => Parse.Number (signed_text s' (Z.of_nat k))) (seq 0 1001)
               = map (fun k => grid_value s' (Z.of_nat k)) (seq 0 1001)).
  { intros [|]; vm_compute; reflexivity. }
  pose proof (proj1 map_ext_in_iff (Hall s) (Z.to_nat n)) as H.
  cbv beta in H. rewrite Z2Nat.id in H by lia.
  apply H. apply in_seq. lia.
Qed.

Lemma digits2_pos_bound (m : positive) :
  (Z.pos m < 2 ^ Z.pos (digits2_pos m))%Z.
Proof.
  induction m as [m IH | m IH |]; simpl digits2_pos.
  - rewrite Pos2Z.inj_succ, Z.pow_succ_r by lia. lia.
  - rewrite Pos2Z.inj_succ, Z.pow_succ_r by lia. lia.
  - reflexivity.
Qed.

(** A valid binary64 number of magnitude at most 10, as a fraction. *)
Lemma magnitude_at_most_10 (s : bool) (m : positive) (e : Z) :
  valid_binary JS.prec JS.emax (S754_finite s m e) = true ->
  js_le (JS.abs (S754_finite s m e)) (JS.of_Z 10) = true ->
  exists p, e = Z.neg p /\ (Z.pos m <= 10 * 2 ^ Z.pos p)%Z.
Proof.
  intros Hvalid Hle.
  change (JS.of_Z 10) with (S754_finite false 5629499534213120 (-49)) in Hle.
  unfold js_le, SFleb, JS.abs, SFabs, SFcompare in Hle.
  unfold valid_binary, bounded, canonical_mantissa in Hvalid.
  unfold SpecFloat.fexp, SpecFloat.emin in Hvalid.
  apply andb_prop in Hvalid. destruct Hvalid as [Hcanon _].
  apply Z.eqb_eq in Hcanon.
  assert (Hdigits : (Z.pos (digits2_pos m) <= 53)%Z).
  { cbv [SpecFloat.fexp SpecFloat.emin JS.prec JS.emax] in Hcanon. lia. }
  pose proof (digits2_pos_bound m) as Hm.
  assert (Hm53 : (Z.pos m < 2 ^ 53)%Z).
  { eapply Z.lt_le_trans; [exact Hm |]. apply Z.pow_le_mono_r; lia. }
  destruct (Z.compare_spec e (-49)) as [Heq | Hlt | Hgt]; try discriminate Hle.
  - subst e. exists 49%positive. split; [reflexivity |].
    assert (Hc : (Z.pos m <= 5629499534213120)%Z).
    { pose proof (Z.compare_spec (Z.pos m) 5629499534213120) as Hs.
      rewrite <- Pos2Z.inj_compare in Hs. unfold Pos.compare in Hs.
      revert Hle.
      destruct Hs as [Hc | Hc | Hc]; intros Hle; try discriminate Hle;
        clear - Hc; lia. }
    assert (E : (2 ^ Z.pos 49 = 562949953421312)%Z) by reflexivity.
    rewrite E. clear - Hc. lia.
  - destruct e as [| p | p]; try lia.
    exists p. split; [reflexivity |].
    assert (Hp : (2 ^ 50 <= 2 ^ Z.pos p)%Z) by (apply Z.pow_le_mono_r; lia).
    assert (E : (2 ^ 53 = 8 * 2 ^ 50)%Z) by reflexivity.
    rewrite E in Hm53. clear - Hm53 Hp. lia.
Qed.

Lemma snap_of_small (v : JS.number) :
  valid_binary JS.prec JS.emax v = true ->
  js_le (JS.abs v) (JS.of_Z 10) = true ->
  exists s n, (0 <= n <= 1000)%Z /\ snap v = grid_value s n.
Proof.
  intros Hvalid Hle. unfold snap.
  destruct v as [s | s | | s m e]; try discriminate Hle.
  - exists false, 0%Z. split; [lia |]. vm_compute. reflexivity.
  - destruct (magnitude_at_most_10 s m e Hvalid Hle) as [p [-> Hm]].
    unfold Format.toFixed, Format.magnitude.
    assert (Hden : (0 < 2 ^ Z.pos p)%Z) by (apply Z.pow_pos_nonneg; lia).
    assert (Hbig : Z.leb (10 ^ 21 * 2 ^ Z.pos p) (Z.pos m) = false).
    { apply Z.leb_gt.
      assert (E : (10 ^ 21 = 1000000000000000000000)%Z) by reflexivity.
      rewrite E. clear - Hm Hden. lia. }
    rewrite Hbig.
    set (n := Format.nearest_scaled (Z.pos m) (2 ^ Z.pos p) 2).
    assert (Hn : (0 <= n <= 1000)%Z).
    { unfold n, Format.nearest_scaled.
      assert (E : (10 ^ Z.of_nat 2 = 100)%Z) by reflexivity.
      rewrite E. clear - Hm Hden.
      split.
      - apply Z.div_pos; lia.
      - apply Z.lt_succ_r. apply Z.div_lt_upper_bound; lia. }
    exists s, n. split; [exact Hn |].
    exact (Number_of_signed_text s n Hn).
Qed.

Lemma grid_value_decimal (s : bool) (n : Z) :
  (0 <= n <= 1000)%Z ->
  exists k, (-1000 <= k <= 1000)%Z /\ same_number (grid_value s n) (JS.decimal k 2).
Proof.
  intros Hn. destruct n as [| p | p]; [| | lia].
  - exists 0%Z. split; [lia |].
    assert (E : JS.decimal 0 2 = S754_zero false) by (vm_compute; reflexivity).
    rewrite E. exact I.
  - exists (if s then - Z.pos p else Z.pos p)%Z. split.
    + destruct s; lia.
    + apply same_number_refl.
Qed.

(** A click whose raw coordinates are binary64 numbers of magnitude at most
    10 stores coordinates on the grid of hundredths, between -10 and 10: each
    is, up to the sign of zero, the number nearest to [k / 100] for an
    integer [k] with [-1000 <= k <= 1000]. *)
Theorem click_coordinates_on_grid (e : MouseEvent) :
  valid_binary JS.prec JS.emax (rawX e) = true ->
  js_le (JS.abs (rawX e)) (JS.of_Z 10) = true ->
  valid_binary JS.prec JS.emax (rawY e) = true ->
  js_le (JS.abs (rawY e)) (JS.of_Z 10) = true ->
  exists kx ky,
    (-1000 <= kx <= 1000)%Z /\ (-1000 <= ky <= 1000)%Z /\
    same_number (fst (clickCoordinates e)) (JS.decimal kx 2) /\
    same_number (snd (clickCoordinates e)) (JS.decimal ky 2).
Proof.
  intros Hvx Hlx Hvy Hly. rewrite clickCoordinates_snap. cbn [fst snd].
  destruct (snap_of_small (rawX e) Hvx Hlx) as [sx [nx [Hnx ->]]].
  destruct (snap_of_small (rawY e) Hvy Hly) as [sy [ny [Hny ->]]].
  destruct (grid_value_decimal sx nx Hnx) as [kx [Hkx Hx]].
  destruct (grid_value_decimal sy ny Hny) as [ky [Hky Hy]].
  exists kx, ky. repeat split; try lia; assumption.
Qed.

Lemma click_coordinates_on_grid_witness :
  exists kx ky,
    (-1000 <= kx <= 1000)%Z /\ (-1000 <= ky <= 1000)%Z /\
    same_number
      (fst (clickCoordinates
              (mkMouseEvent (JS.of_Z 607) (JS.of_Z 699) (JS.of_Z 8) (JS.of_Z 100)
                            (JS.of_Z 600) (JS.of_Z 600) false)))
      (JS.decimal kx 2) /\
    same_number
      (snd (clickCoordinates
              (mkMouseEvent (JS.of_Z 607) (JS.of_Z 699) (JS.of_Z 8) (JS.of_Z 100)
                            (JS.of_Z 600) (JS.of_Z 600) false)))
      (JS.decimal ky 2).
Proof.
  apply (click_coordinates_on_grid
           (mkMouseEvent (JS.of_Z 607) (JS.of_Z 699) (JS.of_Z 8) (JS.of_Z 100)
                         (JS.of_Z 600) (JS.of_Z 600) false));
    vm_compute; reflexivity.
Defined.

Lemma pixel_columns :
  map (fun k => snap (JS.of_Z (Z.of_nat k) / JS.of_Z 600 * JS.of_Z 20 - JS.of_Z 10)%js)
      (seq 0 601)
  = map (fun k => JS.decimal ((20 * Z.of_nat k - 6000 + 3) / 6) 2) (seq 0 601).
Proof. vm_compute. reflexivity. Qed.

Lemma pixel_rows :
  map (fun k => snap (JS.neg (JS.of_Z (Z.of_nat k) / JS.of_Z 600) * JS.of_Z 20
                      + JS.of_Z 10)%js)
      (seq 0 601)
  = map (fun k => JS.decimal ((6000 - 20 * Z.of_nat k + 3) / 6) 2) (seq 0 601).
Proof. vm_compute. reflexivity. Qed.

(** On a plot of 600 by 600 pixels, a click [dx] pixels from the left edge
    and [dy] pixels from the top edge, both whole numbers, stores the point
    whose [x] is [dx / 30 - 10] and whose [y] is [10 - dy / 30], each rounded
    to the nearest hundredth: [k / 100] with
    [k = floor ((20 dx - 6000 + 3) / 6)] for [x] and
    [k = floor ((6000 - 20 dy + 3) / 6)] for [y]. *)
Theorem click_on_standard_plot (e : MouseEvent) (dx dy : Z) :
  (0 <= dx <= 600)%Z -> (0 <= dy <= 600)%Z ->
  rectWidth e = JS.of_Z 600 -> rectHeight e = JS.of_Z 600 ->
  (clientX e - rectLeft e)%js = JS.of_Z dx ->
  (clientY e - rectTop e)%js = JS.of_Z dy ->
  clickCoordinates e
    = (JS.decimal ((20 * dx - 6000 + 3) / 6) 2,
       JS.decimal ((6000 - 20 * dy + 3) / 6) 2).
Proof.
  intros Hdx Hdy Hw Hh Hx Hy.
  rewrite clickCoordinates_snap. unfold rawX, rawY. rewrite Hw, Hh, Hx, Hy.
  pose proof (proj1 map_ext_in_iff pixel_columns (Z.to_nat dx)) as Hcol.
  pose proof (proj1 map_ext_in_iff pixel_rows (Z.to_nat dy)) as Hrow.
  cbv beta in Hcol, Hrow. rewrite Z2Nat.id in Hcol, Hrow by lia.
  rewrite Hcol, Hrow by (apply in_seq; lia). reflexivity.
Qed.

Lemma click_on_standard_plot_witness :
  clickCoordinates
    (mkMouseEvent (JS.of_Z 607) (JS.of_Z 699) (JS.of_Z 8) (JS.of_Z 100)
                  (JS.of_Z 600) (JS.of_Z 600) false)
  = (JS.decimal 997 2, JS.decimal (-997) 2).
Proof.
  apply (click_on_standard_plot
           (mkMouseEvent (JS.of_Z 607) (JS.of_Z 699) (JS.of_Z 8) (JS.of_Z 100)
                         (JS.of_Z 600) (JS.of_Z 600) false) 599 599);
    try lia; vm_compute; reflexivity.
Defined.

(** ** The drawn segment *)

Lemma regressionSegment_eq (l : Line) :
  regressionSegment l =
    mkSegment lit_0
      (JS.mul (JS.div (JS.sub (JS.of_Z 10)
                 (JS.add (JS.mul (slope l) (JS.neg (JS.of_Z 10))) (intercept l)))
                 (JS.of_Z 20)) (JS.of_Z 600))
      (JS.of_Z 600)
      (JS.mul (JS.div (JS.sub (JS.of_Z 10)
                 (JS.add (JS.mul (slope l) (JS.of_Z 10)) (intercept l)))
                 (JS.of_Z 20)) (JS.of_Z 600)).
Proof.
  unfold regressionSegment.
  assert (E1 : JS.mul (JS.div (JS.add (JS.of_Z (-10)) (JS.of_Z 10)) (JS.of_Z 20)) (JS.of_Z 600) = lit_0)
    by (vm_compute; reflexivity).
  assert (E2 : JS.mul (JS.div (JS.add (JS.of_Z 10) (JS.of_Z 10)) (JS.of_Z 20)) (JS.of_Z 600) = JS.of_Z 600)
    by (vm_compute; reflexivity).
  assert (E3 : JS.of_Z (-10) = JS.neg (JS.of_Z 10)) by (vm_compute; reflexivity).
  cbv zeta. now rewrite E1, E2, E3.
Qed.

(** A zero times ten, plus [b], is [b] up to the sign of zero. *)
Lemma flat_height (a b : JS.number) (s : bool) :
  a = S754_zero s ->
  same_number (JS.add (JS.mul a (JS.of_Z 10)) b) b /\
  same_number (JS.add (JS.mul a (JS.neg (JS.of_Z 10))) b) b.
Proof.
  intros ->.
  assert (E1 : JS.mul (S754_zero s) (JS.of_Z 10) = S754_zero s)
    by (destruct s; vm_compute; reflexivity).
  assert (E2 : JS.mul (S754_zero s) (JS.neg (JS.of_Z 10)) = S754_zero (negb s))
    by (destruct s; vm_compute; reflexivity).
  rewrite E1, E2.
  destruct b as [sb | sb | | sb mb eb]; destruct s; try destruct sb; simpl; auto.
Qed.

(** The segment always runs from pixel 0 to pixel 600 horizontally, and
    for a slope that is [=== 0] its two ends have the same height. *)
Theorem segment_spans_plot (l : Line) :
  svgX1 (regressionSegment l) = lit_0 /\
  svgX2 (regressionSegment l) = JS.of_Z 600 /\
  (JS.strict_eq (slope l) lit_0 = true ->
   same_number (svgY1 (regressionSegment l)) (svgY2 (regressionSegment l))).
Proof.
  rewrite regressionSegment_eq. cbn [svgX1 svgX2 svgY1 svgY2].
  repeat split.
  intros Hflat.
  destruct (slope l) as [s | s | | s m e] eqn:Hs; try destruct s; try discriminate Hflat.
  - destruct (flat_height (S754_zero true) (intercept l) true eq_refl) as [H2 H1].
    now rewrite H1, H2.
  - destruct (flat_height (S754_zero false) (intercept l) false eq_refl) as [H2 H1].
    now rewrite H1, H2.
Qed.

(** For the points reflected in the y axis the segment is the mirror
    image, left to right, of the segment for the points. *)
Theorem segment_of_mirrored_x (ps : list Point) (l : Line) :
  RegressionResult.line (calculateRegression ps) = Some l ->
  exists l',
    RegressionResult.line (calculateRegression (map mirror_x ps)) = Some l' /\
    same_number (svgY1 (regressionSegment l')) (svgY2 (regressionSegment l)) /\
    same_number (svgY2 (regressionSegment l')) (svgY1 (regressionSegment l)).
Proof.
  intros Hl. pose proof (mirrored_x_line ps) as H. rewrite Hl in H.
  destruct (RegressionResult.line (calculateRegression (map mirror_x ps)))
    as [l' |]; [| contradiction].
  simpl in H. destruct H as [Hs Hi].
  exists l'. split; [reflexivity |].
  rewrite !regressionSegment_eq. cbn [svgY1 svgY2].
  split.
  - rewrite Hs, Hi, mul_neg_l, mul_neg_r, neg_neg. reflexivity.
  - rewrite Hs, Hi, mul_neg_l, mul_neg_r. reflexivity.
Qed.

(** ** After a reset *)

Lemma clicks_bound (clicks : list MouseEvent) (s : State) :
  (List.length (points (fold_left (fun s a => act a s) (map Click clicks) s))
   <= List.length (points s) + List.length clicks)%nat.
Proof.
  revert s. induction clicks as [| e rest IH]; intros s; simpl; [lia |].
  specialize (IH (click e s)).
  assert (Hone : (List.length (points (click e s)) <= S (List.length (points s)))%nat).
  { rewrite click_points.
    destruct (handlePlotClick e (points s)) as [ps |] eqn:Hclick; [| lia].
    destruct (handlePlotClick_some e (points s) ps Hclick) as [_ [-> _]].
    rewrite length_app. simpl. lia. }
  lia.
Qed.

(** After a reset, fewer than three clicks leave all four stored results
    null, whatever happened before the reset. *)
Theorem statistics_need_three_clicks (before : list Action) (clicks : list MouseEvent) :
  (List.length clicks < 3)%nat ->
  let s := runActions (before ++ Reset :: map Click clicks) in
  correlation s = None /\ regressionLine s = None /\
  calculationSteps s = None /\ regressionSteps s = None.
Proof.
  intros Hfew s.
  assert (Hlen : (List.length (points s) < 3)%nat).
  { unfold s, runActions. rewrite fold_left_app. simpl.
    rewrite reset_is_mounted.
    pose proof (clicks_bound clicks mounted) as H. simpl in H. lia. }
  pose proof (runActions_fresh (before ++ Reset :: map Click clicks)) as Hfresh.
  fold s in Hfresh. unfold fresh, updateStatistics in Hfresh.
  rewrite (calculateCorrelation_few _ Hlen), (calculateRegression_few _ Hlen) in Hfresh.
  rewrite <- Hfresh. simpl. repeat split.
Qed.

Lemma segment_spans_plot_witness :
  same_number (svgY1 (regressionSegment (mkLine lit_0 (JS.of_Z 5))))
              (svgY2 (regressionSegment (mkLine lit_0 (JS.of_Z 5)))).
Proof.
  apply (proj2 (proj2 (segment_spans_plot (mkLine lit_0 (JS.of_Z 5))))).
  vm_compute. reflexivity.
Defined.

Lemma segment_of_mirrored_x_witness :
  exists l',
    RegressionResult.line (calculateRegression (map mirror_x diagonal_points)) = Some l' /\
    same_number (svgY1 (regressionSegment l'))
                (svgY2 (regressionSegment (mkLine (JS.of_Z 1) lit_0))) /\
    same_number (svgY2 (regressionSegment l'))
                (svgY1 (regressionSegment (mkLine (JS.of_Z 1) lit_0))).
Proof.
  apply (segment_of_mirrored_x diagonal_points (mkLine (JS.of_Z 1) lit_0)).
  vm_compute. reflexivity.
Defined.

Lemma statistics_need_three_clicks_witness :
  let before :=
    [Click (plot_click 607 699); Click (plot_click 308 400); Click (plot_click 9 101)] in
  let clicks := [plot_click 100 200; plot_click 300 150] in
  let s := runActions (before ++ Reset :: map Click clicks) in
  (correlation (runActions before) = Some (JS.of_Z (-1)) /\
   List.length (points s) = 2%nat) /\
  correlation s = None /\ regressionLine s = None /\
  calculationSteps s = None /\ regressionSteps s = None.
Proof.
  intros before clicks s. split.
  - split; vm_compute; reflexivity.
  - apply (statistics_need_three_clicks before clicks). simpl. lia.
Defined.

(** ** The coefficient when there is no line *)

Lemma zero_of_strict_eq (a : JS.number) :
  JS.strict_eq a lit_0 = true -> exists s, a = S754_zero s.
Proof.
  destruct a as [s | s | | s m e]; intros H.
  - now exists s.
  - destruct s; discriminate H.
  - discriminate H.
  - destruct s; discriminate H.
Qed.

Lemma root_of_zero_product (s : bool) (b : JS.number) :
  (exists t, JS.sqrt (JS.mul (S754_zero s) b) = S754_zero t) \/
  JS.sqrt (JS.mul (S754_zero s) b) = JS.NaN.
Proof.
  destruct b as [t | t | | t m e].
  - left. exists (xorb s t). reflexivity.
  - right. reflexivity.
  - right. reflexivity.
  - left. exists (xorb s t). reflexivity.
Qed.

Lemma quotient_by_NaN (a : JS.number) : JS.div a JS.NaN = JS.NaN.
Proof. now destruct a. Qed.

(** With three or more points and no regression line, the coefficient is 0
    or NaN; it is 0, without steps, unless [n * sumYSquare - sumY * sumY] has
    overflowed. *)
Theorem coefficient_without_line (ps : list Point) :
  (3 <= List.length ps)%nat ->
  RegressionResult.line (calculateRegression ps) = None ->
  (calculateCorrelation ps = CorrelationResult.mk (Some lit_0) None \/
   CorrelationResult.correlation (calculateCorrelation ps) = Some JS.NaN) /\
  (JS.is_finite (JS.sub (JS.mul (count ps) (sum_yy ps))
                        (JS.mul (sum_y ps) (sum_y ps))) = true ->
   calculateCorrelation ps = CorrelationResult.mk (Some lit_0) None).
Proof.
  intros Hlen Hline.
  rewrite (calculateRegression_eq ps Hlen) in Hline.
  destruct (JS.strict_eq (regression_denominator ps) lit_0) eqn:Hz;
    [| discriminate Hline].
  destruct (zero_of_strict_eq _ Hz) as [s Hs].
  rewrite (calculateCorrelation_eq ps Hlen).
  destruct (has_y_variation ps); cbn [negb];
    [| split; [left; reflexivity | reflexivity]].
  unfold correlation_denominator. fold (regression_denominator ps). rewrite Hs.
  set (b := JS.sub (JS.mul (count ps) (sum_yy ps)) (JS.mul (sum_y ps) (sum_y ps))).
  split.
  - destruct (root_of_zero_product s b) as [[t Ht] | Hnan]; rewrite ?Ht, ?Hnan.
    + left. reflexivity.
    + right. cbn [CorrelationResult.correlation].
      now rewrite quotient_by_NaN.
  - intros Hfin. destruct b as [t | t | | t m e]; try discriminate Hfin; reflexivity.
Qed.

(** ** The sums the panels show *)

(** The correlation panel's fallback ["0.00"] is what the sum would print
    anyway, and the two panels show the same text for a sum exactly when
    there is at least one point. *)
Theorem panels_show_sums (f : Point -> JS.number) (ps : list Point) :
  sumText "0.00" f ps = Format.toFixed (reduce_sum f ps) 2 /\
  (sumText "N/A" f ps = sumText "0.00" f ps <-> ps <> []).
Proof.
  unfold sumText. destruct ps as [| p ps].
  - split.
    + vm_compute. reflexivity.
    + cbn. split; [intros H; discriminate H | intros H; now contradiction H].
  - cbn [List.length Nat.ltb Nat.leb]. split; [reflexivity |].
    split; [intros _ H; discriminate H | reflexivity].
Qed.

(** Whenever both statistics come with steps, the two [steps] objects carry
    the same count and the same four sums, these are the texts the panels
    show, and the numerator of the coefficient is the numerator of the
    slope. *)
Theorem steps_match_panels (ps : list Point)
        (cs : CorrelationSteps.t) (rs : RegressionSteps.t) :
  CorrelationResult.steps (calculateCorrelation ps) = Some cs ->
  RegressionResult.steps (calculateRegression ps) = Some rs ->
  CorrelationSteps.n cs = RegressionSteps.n rs /\
  CorrelationSteps.sumX cs = sumText "0.00" (fun p => x p) ps /\
  CorrelationSteps.sumY cs = sumText "0.00" (fun p => y p) ps /\
  CorrelationSteps.sumXY cs = sumText "0.00" (fun p => JS.mul (x p) (y p)) ps /\
  CorrelationSteps.sumXSquare cs = sumText "0.00" (fun p => JS.mul (x p) (x p)) ps /\
  CorrelationSteps.sumYSquare cs = sumText "0.00" (fun p => JS.mul (y p) (y p)) ps /\
  RegressionSteps.sumX rs = sumText "N/A" (fun p => x p) ps /\
  RegressionSteps.sumY rs = sumText "N/A" (fun p => y p) ps /\
  RegressionSteps.sumXY rs = sumText "N/A" (fun p => JS.mul (x p) (y p)) ps /\
  RegressionSteps.sumXSquare rs = sumText "N/A" (fun p => JS.mul (x p) (x p)) ps /\
  CorrelationSteps.numerator cs = RegressionSteps.slopeNumerator rs.
Proof.
  intros Hcs Hrs.
  destruct (Nat.lt_ge_cases (List.length ps) 3) as [Hlt | Hge].
  - rewrite (calculateCorrelation_few ps Hlt) in Hcs. discriminate Hcs.
  - rewrite (steps_of_many ps Hge) in Hcs.
    rewrite (calculateRegression_eq ps Hge) in Hrs.
    destruct (passes_guards ps); [| discriminate Hcs].
    destruct (JS.strict_eq (regression_denominator ps) lit_0); [discriminate Hrs |].
    injection Hcs as <-. injection Hrs as <-.
    assert (Hpos : (0 <? List.length ps)%nat = true) by (apply Nat.ltb_lt; lia).
    unfold sumText. rewrite Hpos.
    repeat split.
Qed.

(** The second case occurs. *)
Lemma coefficient_without_line_overflow :
  RegressionResult.line (calculateRegression towering_points) = None /\
  CorrelationResult.correlation (calculateCorrelation towering_points) = Some JS.NaN.
Proof. split; vm_compute; reflexivity. Qed.

Lemma coefficient_without_line_witness :
  (calculateCorrelation identical_x_points = CorrelationResult.mk (Some lit_0) None \/
   CorrelationResult.correlation (calculateCorrelation identical_x_points)
     = Some JS.NaN) /\
  (JS.is_finite (JS.sub (JS.mul (count identical_x_points) (sum_yy identical_x_points))
                        (JS.mul (sum_y identical_x_points) (sum_y identical_x_points)))
     = true ->
   calculateCorrelation identical_x_points = CorrelationResult.mk (Some lit_0) None).
Proof.
  apply (coefficient_without_line identical_x_points).
  - simpl. lia.
  - vm_compute. reflexivity.
Defined.

Lemma steps_match_panels_witness :
  exists cs rs,
    CorrelationResult.steps (calculateCorrelation diagonal_points) = Some cs /\
    RegressionResult.steps (calculateRegression diagonal_points) = Some rs /\
    CorrelationSteps.numerator cs = RegressionSteps.slopeNumerator rs.
Proof.
  eexists. eexists.
  split; [vm_compute; reflexivity |].
  split; [vm_compute; reflexivity |].
  refine (proj2 (proj2 (proj2 (proj2 (proj2 (proj2 (proj2 (proj2 (proj2 (proj2
            (steps_match_panels diagonal_points _ _ _ _)))))))))));
    vm_compute; reflexivity.
Defined.

(** ** Arithmetic on whole numbers is exact *)

Local Open Scope Z_scope.

(** ** Shifting a mantissa *)

Lemma iter_pos_nat {A : Type} (f : A -> A) (n : positive) (a : A) :
  SpecFloat.iter_pos f n a = Nat.iter (Pos.to_nat n) f a.
Proof.
  revert a. induction n as [n IH | n IH |]; intros a; simpl SpecFloat.iter_pos.
  - rewrite !IH, Pos2Nat.inj_xI.
    replace (S (2 * Pos.to_nat n))%nat
      with (Pos.to_nat n + (Pos.to_nat n + 1))%nat by lia.
    now rewrite !Nat.iter_add.
  - rewrite !IH, Pos2Nat.inj_xO.
    replace (2 * Pos.to_nat n)%nat with (Pos.to_nat n + Pos.to_nat n)%nat by lia.
    now rewrite Nat.iter_add.
  - reflexivity.
Qed.

Lemma pos_iter_nat {A : Type} (f : A -> A) (n : positive) (a : A) :
  Pos.iter f a n = Nat.iter (Pos.to_nat n) f a.
Proof. apply Pos2Nat.inj_iter. Qed.

Lemma shift_left_value (m : positive) (k : nat) :
  Z.pos (shift_left m k) = Z.pos m * 2 ^ Z.of_nat k.
Proof.
  induction k as [| k IH].
  - simpl. lia.
  - unfold shift_left in *. simpl Nat.iter.
    rewrite Pos2Z.inj_xO, IH, Nat2Z.inj_succ, Z.pow_succ_r by lia. lia.
Qed.

Lemma shift_left_digits (m : positive) (k : nat) :
  Z.pos (digits2_pos (shift_left m k)) = Z.pos (digits2_pos m) + Z.of_nat k.
Proof.
  induction k as [| k IH].
  - simpl. lia.
  - unfold shift_left in *. simpl Nat.iter. simpl digits2_pos.
    rewrite Pos2Z.inj_succ, IH. lia.
Qed.

Lemma shift_left_add (m : positive) (j k : nat) :
  shift_left (shift_left m j) k = shift_left m (k + j).
Proof. unfold shift_left. now rewrite Nat.iter_add. Qed.

(** Shifting right what was shifted left loses nothing. *)
Lemma shr_shift_left (m : positive) (k : nat) :
  Nat.iter k shr_1 (Build_shr_record (Z.pos (shift_left m k)) false false)
  = Build_shr_record (Z.pos m) false false.
Proof.
  induction k as [| k IH].
  - reflexivity.
  - rewrite Nat.iter_succ_r. unfold shift_left. simpl Nat.iter at 2.
    simpl shr_1. exact IH.
Qed.

Lemma shl_align_spec (m : positive) (e e' : Z) :
  shl_align m e e' =
    if e' <? e then (shift_left m (Z.to_nat (e - e')), e') else (m, e).
Proof.
  unfold shl_align.
  destruct (e' - e) as [| d | d] eqn:Hd.
  - assert (H : (e' <? e) = false) by (apply Z.ltb_ge; lia). now rewrite H.
  - assert (H : (e' <? e) = false) by (apply Z.ltb_ge; lia). now rewrite H.
  - assert (H : (e' <? e) = true) by (apply Z.ltb_lt; lia). rewrite H.
    rewrite pos_iter_nat. unfold shift_left.
    replace (Z.to_nat (e - e')) with (Pos.to_nat d) by lia. reflexivity.
Qed.

Lemma shr_spec (mrs : shr_record) (e n : Z) :
  shr mrs e n =
    if 0 <? n then (Nat.iter (Z.to_nat n) shr_1 mrs, e + n) else (mrs, e).
Proof.
  unfold shr. destruct n as [| p | p]; try reflexivity.
  simpl Z.ltb. now rewrite iter_pos_nat.
Qed.

Lemma aligned_spec (m : positive) (e : Z) :
  let E := fexp JS.prec JS.emax (Z.pos (digits2_pos m) + e) in
  aligned m e =
    if E <? e
    then (Build_shr_record (Z.pos (shift_left m (Z.to_nat (e - E)))) false false, E)
    else if e <? E
    then (Nat.iter (Z.to_nat (E - e)) shr_1 (Build_shr_record (Z.pos m) false false), E)
    else (Build_shr_record (Z.pos m) false false, e).
Proof.
  intros E. unfold aligned. fold E. rewrite shl_align_spec.
  destruct (E <? e) eqn:H1.
  - apply Z.ltb_lt in H1. unfold shr_fexp. simpl Zdigits2.
    rewrite shift_left_digits, Z2Nat.id by lia.
    replace (Z.pos (digits2_pos m) + (e - E) + E) with (Z.pos (digits2_pos m) + e) by lia.
    fold E. rewrite Z.sub_diag. reflexivity.
  - apply Z.ltb_ge in H1. unfold shr_fexp. simpl Zdigits2. fold E.
    rewrite shr_spec.
    destruct (e <? E) eqn:H2.
    + apply Z.ltb_lt in H2.
      assert (H : (0 <? E - e) = true) by (apply Z.ltb_lt; lia).
      rewrite H. simpl shr_record_of_loc. f_equal. lia.
    + apply Z.ltb_ge in H2.
      assert (H : (0 <? E - e) = false) by (apply Z.ltb_ge; lia).
      now rewrite H.
Qed.

Lemma aligned_shift (m : positive) (k : nat) (e : Z) :
  aligned (shift_left m k) (e - Z.of_nat k) = aligned m e.
Proof.
  pose proof (aligned_spec (shift_left m k) (e - Z.of_nat k)) as H1.
  pose proof (aligned_spec m e) as H2.
  cbv zeta in H1, H2. rewrite H1, H2. clear H1 H2.
  rewrite shift_left_digits.
  replace (Z.pos (digits2_pos m) + Z.of_nat k + (e - Z.of_nat k))
    with (Z.pos (digits2_pos m) + e) by lia.
  set (E := fexp JS.prec JS.emax (Z.pos (digits2_pos m) + e)). clearbody E.
  destruct (E <? e - Z.of_nat k) eqn:Ha.
  - apply Z.ltb_lt in Ha.
    assert (H : (E <? e) = true) by (apply Z.ltb_lt; lia). rewrite H.
    rewrite shift_left_add. repeat f_equal. lia.
  - apply Z.ltb_ge in Ha.
    destruct (e - Z.of_nat k <? E) eqn:Hb.
    + apply Z.ltb_lt in Hb.
      destruct (E <? e) eqn:Hc.
      * apply Z.ltb_lt in Hc.
        assert (Hk : shift_left m k
                     = shift_left (shift_left m (Z.to_nat (e - E)))
                                  (Z.to_nat (E - (e - Z.of_nat k))))
          by (rewrite shift_left_add; f_equal; lia).
        rewrite Hk, shr_shift_left. reflexivity.
      * apply Z.ltb_ge in Hc.
        destruct (e <? E) eqn:Hd.
        -- apply Z.ltb_lt in Hd.
           replace (Z.to_nat (E - (e - Z.of_nat k))) with (Z.to_nat (E - e) + k)%nat by lia.
           rewrite Nat.iter_add, shr_shift_left. reflexivity.
        -- apply Z.ltb_ge in Hd.
           replace (Z.to_nat (E - (e - Z.of_nat k))) with k by lia.
           rewrite shr_shift_left. f_equal. now apply Z.le_antisymm.
    + apply Z.ltb_ge in Hb.
      assert (HE : E = e - Z.of_nat k) by lia. subst E.
      destruct k as [| k].
      * rewrite Z.sub_0_r, Z.ltb_irrefl. reflexivity.
      * assert (H : (e - Z.of_nat (S k) <? e) = true) by (apply Z.ltb_lt; lia).
        rewrite H. repeat f_equal. lia.
Qed.

Lemma binary_round_aux_finish (s : bool) (m e : Z) (l : location) :
  binary_round_aux JS.prec JS.emax s m e l = finish s (shr_fexp JS.prec JS.emax m e l).
Proof. reflexivity. Qed.

Lemma binary_round_finish (s : bool) (m : positive) (e : Z) :
  binary_round JS.prec JS.emax s m e = finish s (aligned m e).
Proof.
  unfold binary_round, aligned.
  destruct (shl_align m e (fexp JS.prec JS.emax (Z.pos (digits2_pos m) + e))) as [mz ez].
  apply binary_round_aux_finish.
Qed.

(** Rounding sees the value only: [m * 2^k] at exponent [e - k] rounds as
    [m] at exponent [e]. *)
Lemma binary_round_shift (s : bool) (m : positive) (k : nat) (e : Z) :
  binary_round JS.prec JS.emax s (shift_left m k) (e - Z.of_nat k)
  = binary_round JS.prec JS.emax s m e.
Proof. now rewrite !binary_round_finish, aligned_shift. Qed.

(** A mantissa of at least 53 digits needs no alignment to the left. *)
Lemma binary_round_long (s : bool) (m : positive) (e : Z) :
  53 <= Z.pos (digits2_pos m) ->
  binary_round_aux JS.prec JS.emax s (Z.pos m) e loc_Exact
  = binary_round JS.prec JS.emax s m e.
Proof.
  intros Hd. rewrite binary_round_finish, binary_round_aux_finish. f_equal.
  unfold aligned. rewrite shl_align_spec.
  assert (H : (fexp JS.prec JS.emax (Z.pos (digits2_pos m) + e) <? e) = false).
  { apply Z.ltb_ge. cbv [SpecFloat.fexp SpecFloat.emin JS.prec JS.emax]. lia. }
  now rewrite H.
Qed.

Lemma digits2_pos_lower (m : positive) :
  2 ^ (Z.pos (digits2_pos m) - 1) <= Z.pos m.
Proof.
  induction m as [m IH | m IH |]; simpl digits2_pos.
  - rewrite Pos2Z.inj_succ.
    replace (Z.succ (Z.pos (digits2_pos m)) - 1) with (Z.succ (Z.pos (digits2_pos m) - 1)) by lia.
    rewrite Z.pow_succ_r by lia. lia.
  - rewrite Pos2Z.inj_succ.
    replace (Z.succ (Z.pos (digits2_pos m)) - 1) with (Z.succ (Z.pos (digits2_pos m) - 1)) by lia.
    rewrite Z.pow_succ_r by lia. lia.
  - reflexivity.
Qed.

Lemma binary_round_small (s : bool) (p : positive) :
  Z.pos p < 2 ^ 53 ->
  binary_round JS.prec JS.emax s p 0
  = S754_finite s (shift_left p (slack p)) (- Z.of_nat (slack p)).
Proof.
  intros Hp.
  assert (Hd : Z.pos (digits2_pos p) <= 53).
  { pose proof (digits2_pos_lower p) as Hl.
    destruct (Z.le_gt_cases (Z.pos (digits2_pos p)) 53) as [H | H]; [exact H |].
    assert (2 ^ 53 <= 2 ^ (Z.pos (digits2_pos p) - 1)) by (apply Z.pow_le_mono_r; lia).
    lia. }
  rewrite binary_round_finish.
  pose proof (aligned_spec p 0) as Ha. cbv zeta in Ha. rewrite Ha. clear Ha.
  assert (HE : fexp JS.prec JS.emax (Z.pos (digits2_pos p) + 0)
               = Z.pos (digits2_pos p) - 53).
  { cbv [SpecFloat.fexp SpecFloat.emin JS.prec JS.emax]. lia. }
  rewrite HE. unfold slack.
  set (d := Z.pos (digits2_pos p)) in *.
  assert (Hfin : forall q : positive,
            Z.pos (digits2_pos q) = 53 ->
            forall E, -52 <= E <= 0 ->
            finish s (Build_shr_record (Z.pos q) false false, E) = S754_finite s q E).
  { intros q Hq E HEr. unfold finish. simpl shr_m. simpl loc_of_shr_record.
    simpl round_nearest_even. unfold shr_fexp. simpl Zdigits2. rewrite Hq.
    assert (Hz : fexp JS.prec JS.emax (53 + E) - E = 0).
    { cbv [SpecFloat.fexp SpecFloat.emin JS.prec JS.emax]. lia. }
    rewrite Hz. cbn [shr shr_m shr_record_of_loc].
    assert (Hle : (E <=? JS.emax - JS.prec) = true).
    { apply Z.leb_le. unfold JS.emax, JS.prec. lia. }
    now rewrite Hle. }
  destruct (d - 53 <? 0) eqn:H1.
  - apply Z.ltb_lt in H1.
    replace (0 - (d - 53)) with (53 - d) by lia.
    rewrite Hfin.
    + f_equal. lia.
    + rewrite shift_left_digits. fold d. lia.
    + pose proof (Pos2Z.is_pos (digits2_pos p)). fold d in H. lia.
  - apply Z.ltb_ge in H1.
    assert (H2 : (0 <? d - 53) = false) by (apply Z.ltb_ge; lia). rewrite H2.
    assert (Hd53 : d = 53) by lia.
    replace (Z.to_nat (53 - d)) with 0%nat by lia. simpl shift_left. simpl Z.of_nat.
    rewrite Hfin; [reflexivity | exact Hd53 | lia].
Qed.

Lemma of_Z_signed (s : bool) (p : positive) :
  Z.pos p < 2 ^ 53 ->
  JS.of_Z (cond_Zopp s (Z.pos p))
  = S754_finite s (shift_left p (slack p)) (- Z.of_nat (slack p)).
Proof.
  intros Hp. destruct s; simpl cond_Zopp; unfold JS.of_Z; simpl binary_normalize;
    now apply binary_round_small.
Qed.

Lemma signed_cases (z : Z) :
  z = 0 \/ exists s p, z = cond_Zopp s (Z.pos p) /\ Z.pos p = Z.abs z.
Proof.
  destruct z as [| p | p]; [now left | right; exists false, p | right; exists true, p];
    simpl; split; reflexivity.
Qed.

(** Rounding [z * 2^k] at exponent [-k] gives the number of [z]. *)
Lemma binary_normalize_scaled (z : Z) (k : nat) :
  binary_normalize JS.prec JS.emax (z * 2 ^ Z.of_nat k) (- Z.of_nat k) false
  = JS.of_Z z.
Proof.
  unfold JS.of_Z.
  destruct z as [| p | p].
  - reflexivity.
  - rewrite <- shift_left_value. simpl binary_normalize.
    apply (binary_round_shift false p k 0).
  - change (Z.neg p) with (- Z.pos p). rewrite Z.mul_opp_l, <- shift_left_value.
    simpl binary_normalize. apply (binary_round_shift true p k 0).
Qed.

Lemma aligned_mantissa (p : positive) (d k : nat) :
  (d <= k)%nat ->
  fst (shl_align (shift_left p d) (- Z.of_nat d) (- Z.of_nat k)) = shift_left p k.
Proof.
  intros Hdk. rewrite shl_align_spec.
  destruct (- Z.of_nat k <? - Z.of_nat d) eqn:H.
  - apply Z.ltb_lt in H. simpl fst. rewrite shift_left_add. f_equal. lia.
  - apply Z.ltb_ge in H. simpl fst. f_equal. lia.
Qed.

Lemma add_of_Z (a b : Z) :
  Z.abs a < 2 ^ 53 -> Z.abs b < 2 ^ 53 ->
  JS.add (JS.of_Z a) (JS.of_Z b) = JS.of_Z (a + b).
Proof.
  intros Ha Hb.
  destruct (signed_cases a) as [-> | [sa [pa [Ea Pa]]]];
    destruct (signed_cases b) as [-> | [sb [pb [Eb Pb]]]].
  - reflexivity.
  - rewrite Z.add_0_l, Eb, of_Z_signed by lia. reflexivity.
  - rewrite Z.add_0_r, Ea, of_Z_signed by lia. reflexivity.
  - rewrite Ea, Eb, !of_Z_signed by lia.
    unfold JS.add, SFadd.
    set (da := slack pa). set (db := slack pb).
    assert (Hmin : Z.min (- Z.of_nat da) (- Z.of_nat db) = - Z.of_nat (Nat.max da db)) by lia.
    rewrite Hmin, !aligned_mantissa by lia.
    rewrite !shift_left_value.
    replace (cond_Zopp sa (Z.pos pa * 2 ^ Z.of_nat (Nat.max da db))
             + cond_Zopp sb (Z.pos pb * 2 ^ Z.of_nat (Nat.max da db)))
      with ((cond_Zopp sa (Z.pos pa) + cond_Zopp sb (Z.pos pb))
            * 2 ^ Z.of_nat (Nat.max da db))
      by (destruct sa, sb; unfold cond_Zopp; ring).
    apply binary_normalize_scaled.
Qed.

Lemma sub_of_Z (a b : Z) :
  Z.abs a < 2 ^ 53 -> Z.abs b < 2 ^ 53 ->
  JS.sub (JS.of_Z a) (JS.of_Z b) = JS.of_Z (a - b).
Proof.
  intros Ha Hb.
  destruct (signed_cases a) as [-> | [sa [pa [Ea Pa]]]];
    destruct (signed_cases b) as [-> | [sb [pb [Eb Pb]]]].
  - reflexivity.
  - rewrite Z.sub_0_l, Eb.
    replace (- cond_Zopp sb (Z.pos pb)) with (cond_Zopp (negb sb) (Z.pos pb))
      by (destruct sb; reflexivity).
    rewrite !of_Z_signed by lia. reflexivity.
  - rewrite Z.sub_0_r, Ea, of_Z_signed by lia. reflexivity.
  - rewrite Ea, Eb, !of_Z_signed by lia.
    unfold JS.sub, SFsub.
    set (da := slack pa). set (db := slack pb).
    assert (Hmin : Z.min (- Z.of_nat da) (- Z.of_nat db) = - Z.of_nat (Nat.max da db)) by lia.
    rewrite Hmin, !aligned_mantissa by lia.
    rewrite !shift_left_value.
    replace (cond_Zopp sa (Z.pos pa * 2 ^ Z.of_nat (Nat.max da db))
             - cond_Zopp sb (Z.pos pb * 2 ^ Z.of_nat (Nat.max da db)))
      with ((cond_Zopp sa (Z.pos pa) - cond_Zopp sb (Z.pos pb))
            * 2 ^ Z.of_nat (Nat.max da db))
      by (destruct sa, sb; unfold cond_Zopp; ring).
    apply binary_normalize_scaled.
Qed.

Lemma shift_left_full (p : positive) :
  Z.pos p < 2 ^ 53 ->
  Z.pos (digits2_pos (shift_left p (slack p))) = 53.
Proof.
  intros Hp. rewrite shift_left_digits. unfold slack.
  assert (Hd : Z.pos (digits2_pos p) <= 53).
  { pose proof (digits2_pos_lower p) as Hl.
    destruct (Z.le_gt_cases (Z.pos (digits2_pos p)) 53) as [H | H]; [exact H |].
    assert (2 ^ 53 <= 2 ^ (Z.pos (digits2_pos p) - 1)) by (apply Z.pow_le_mono_r; lia).
    lia. }
  lia.
Qed.

Lemma product_long (m n : positive) :
  Z.pos (digits2_pos m) = 53 -> 53 <= Z.pos (digits2_pos (m * n)).
Proof.
  intros Hm.
  pose proof (digits2_pos_lower m) as Hl. rewrite Hm in Hl.
  pose proof (digits2_pos_bound (m * n)) as Hu.
  destruct (Z.le_gt_cases 53 (Z.pos (digits2_pos (m * n)))) as [H | H]; [exact H |].
  assert (Hp : 2 ^ Z.pos (digits2_pos (m * n)) <= 2 ^ 52) by (apply Z.pow_le_mono_r; lia).
  rewrite Pos2Z.inj_mul in Hu.
  change (2 ^ (53 - 1)) with (2 ^ 52) in Hl.
  assert (Hn : 1 <= Z.pos n) by lia.
  nia.
Qed.

Lemma mul_of_Z (a b : Z) :
  Z.abs a < 2 ^ 53 -> Z.abs b < 2 ^ 53 ->
  same_number (JS.mul (JS.of_Z a) (JS.of_Z b)) (JS.of_Z (a * b)).
Proof.
  intros Ha Hb.
  destruct (signed_cases a) as [-> | [sa [pa [Ea Pa]]]];
    destruct (signed_cases b) as [-> | [sb [pb [Eb Pb]]]].
  - exact I.
  - rewrite Z.mul_0_l, Eb, of_Z_signed by lia. exact I.
  - rewrite Z.mul_0_r, Ea, of_Z_signed by lia. exact I.
  - rewrite Ea, Eb, !of_Z_signed by lia.
    unfold JS.mul, SFmul.
    rewrite binary_round_long
      by (apply product_long; apply shift_left_full; lia).
    assert (Hprod : (shift_left pa (slack pa) * shift_left pb (slack pb))%positive
                    = shift_left (pa * pb) (slack pa + slack pb)).
    { apply Pos2Z.inj. rewrite Pos2Z.inj_mul, !shift_left_value, Pos2Z.inj_mul.
      rewrite Nat2Z.inj_add, Z.pow_add_r by lia. ring. }
    rewrite Hprod.
    replace (- Z.of_nat (slack pa) + - Z.of_nat (slack pb))
      with (0 - Z.of_nat (slack pa + slack pb)) by lia.
    rewrite binary_round_shift.
    replace (cond_Zopp sa (Z.pos pa) * cond_Zopp sb (Z.pos pb))
      with (cond_Zopp (xorb sa sb) (Z.pos (pa * pb)))
      by (destruct sa, sb; unfold cond_Zopp; simpl xorb; rewrite Pos2Z.inj_mul; ring).
    destruct (xorb sa sb); apply same_number_refl.
Qed.

(** ** The sums of whole-number points *)

Lemma zsum_bound (g : Z * Z -> Z) (G : Z) (zs : list (Z * Z)) :
  (forall z, In z zs -> Z.abs (g z) <= G) ->
  Z.abs (zsum g zs) <= Z.of_nat (List.length zs) * G.
Proof.
  induction zs as [| z zs IH]; intros H.
  - simpl. lia.
  - simpl zsum. simpl List.length. rewrite Nat2Z.inj_succ.
    pose proof (H z (or_introl eq_refl)) as Hz.
    assert (Hrest : Z.abs (zsum g zs) <= Z.of_nat (List.length zs) * G).
    { apply IH. intros w Hw. apply H. now right. }
    lia.
Qed.

(** A left-to-right sum of numbers of integers is the number of the sum,
    as long as every partial sum stays below [2^53]. *)
Lemma reduce_sum_exact (f : Point -> JS.number) (g : Z * Z -> Z) (G : Z)
      (zs : list (Z * Z)) :
  (forall z, In z zs -> same_number (f (integer_point z)) (JS.of_Z (g z))) ->
  (forall z, In z zs -> Z.abs (g z) <= G) ->
  Z.of_nat (List.length zs) * G < 2 ^ 53 ->
  same_number (reduce_sum f (map integer_point zs)) (JS.of_Z (zsum g zs)).
Proof.
  intros Hf Hg Hlen. unfold reduce_sum.
  assert (Hgen : forall (acc : JS.number) (A : Z),
            same_number acc (JS.of_Z A) ->
            Z.abs A + Z.of_nat (List.length zs) * G < 2 ^ 53 ->
            same_number
              (fold_left (fun acc p => JS.add acc (f p)) (map integer_point zs) acc)
              (JS.of_Z (A + zsum g zs))).
  { clear Hlen. induction zs as [| z zs IH]; intros acc A Hacc Hroom.
    - simpl. now rewrite Z.add_0_r.
    - simpl fold_left. simpl zsum.
      pose proof (Hg z (or_introl eq_refl)) as Hz.
      simpl List.length in Hroom. rewrite Nat2Z.inj_succ in Hroom.
      assert (HG : 0 <= G) by lia.
      assert (Hn : 0 <= Z.of_nat (List.length zs) * G) by (apply Z.mul_nonneg_nonneg; lia).
      replace (A + (g z + zsum g zs)) with ((A + g z) + zsum g zs) by ring.
      apply IH.
      + intros w Hw. apply Hf. now right.
      + intros w Hw. apply Hg. now right.
      + rewrite Hacc, (Hf z (or_introl eq_refl)).
        rewrite add_of_Z by lia. reflexivity.
      + lia. }
  specialize (Hgen lit_0 0). simpl Z.add in Hgen. apply Hgen.
  - exact I.
  - simpl Z.abs. lia.
Qed.

Section IntegerData.

Variable zs : list (Z * Z).
Hypothesis Hdom : Forall in_domain zs.
Hypothesis Hlen : Z.of_nat (List.length zs) <= 1000000.

Lemma domain_of_member (z : Z * Z) :
  In z zs -> -10 <= fst z <= 10 /\ -10 <= snd z <= 10.
Proof. intros Hz. exact (proj1 (Forall_forall _ _) Hdom z Hz). Qed.

Lemma integer_count : count (map integer_point zs) = JS.of_Z (Z.of_nat (List.length zs)).
Proof. unfold count, JS.of_nat. now rewrite length_map. Qed.

Lemma integer_sum_x : same_number (sum_x (map integer_point zs)) (JS.of_Z (SX zs)).
Proof.
  apply (reduce_sum_exact (fun p => x p) fst 10).
  - intros z _. apply same_number_refl.
  - intros z Hz. destruct (domain_of_member z Hz). lia.
  - change (2 ^ 53) with 9007199254740992. lia.
Qed.

Lemma integer_sum_y : same_number (sum_y (map integer_point zs)) (JS.of_Z (SY zs)).
Proof.
  apply (reduce_sum_exact (fun p => y p) snd 10).
  - intros z _. apply same_number_refl.
  - intros z Hz. destruct (domain_of_member z Hz). lia.
  - change (2 ^ 53) with 9007199254740992. lia.
Qed.

Lemma small_product (a b : Z) :
  -10 <= a <= 10 -> -10 <= b <= 10 -> Z.abs (a * b) <= 100.
Proof. intros Ha Hb. rewrite Z.abs_mul. nia. Qed.

Lemma integer_sum_xy : same_number (sum_xy (map integer_point zs)) (JS.of_Z (SXY zs)).
Proof.
  apply (reduce_sum_exact (fun p => JS.mul (x p) (y p)) (fun z => fst z * snd z) 100).
  - intros z Hz. destruct (domain_of_member z Hz). simpl.
    apply mul_of_Z; change (2 ^ 53) with 9007199254740992; lia.
  - intros z Hz. destruct (domain_of_member z Hz). now apply small_product.
  - change (2 ^ 53) with 9007199254740992. lia.
Qed.

Lemma integer_sum_xx : same_number (sum_xx (map integer_point zs)) (JS.of_Z (SXX zs)).
Proof.
  apply (reduce_sum_exact (fun p => JS.mul (x p) (x p)) (fun z => fst z * fst z) 100).
  - intros z Hz. destruct (domain_of_member z Hz). simpl.
    apply mul_of_Z; change (2 ^ 53) with 9007199254740992; lia.
  - intros z Hz. destruct (domain_of_member z Hz). now apply small_product.
  - change (2 ^ 53) with 9007199254740992. lia.
Qed.

Lemma integer_sum_yy : same_number (sum_yy (map integer_point zs)) (JS.of_Z (SYY zs)).
Proof.
  apply (reduce_sum_exact (fun p => JS.mul (y p) (y p)) (fun z => snd z * snd z) 100).
  - intros z Hz. destruct (domain_of_member z Hz). simpl.
    apply mul_of_Z; change (2 ^ 53) with 9007199254740992; lia.
  - intros z Hz. destruct (domain_of_member z Hz). now apply small_product.
  - change (2 ^ 53) with 9007199254740992. lia.
Qed.

Lemma sums_bounded :
  Z.abs (SX zs) <= Z.of_nat (List.length zs) * 10 /\ Z.abs (SY zs) <= Z.of_nat (List.length zs) * 10 /\
  Z.abs (SXY zs) <= Z.of_nat (List.length zs) * 100 /\ Z.abs (SXX zs) <= Z.of_nat (List.length zs) * 100 /\
  Z.abs (SYY zs) <= Z.of_nat (List.length zs) * 100.
Proof.
  unfold SX, SY, SXY, SXX, SYY.
  repeat split; apply zsum_bound; intros z Hz; destruct (domain_of_member z Hz);
    try lia; now apply small_product.
Qed.

End IntegerData.

Lemma of_Z_is_zero (d : Z) :
  Z.abs d < 2 ^ 53 ->
  JS.strict_eq (JS.of_Z d) lit_0 = (d =? 0).
Proof.
  intros Hd. destruct (signed_cases d) as [-> | [s [p [E P]]]].
  - reflexivity.
  - rewrite E, of_Z_signed by lia.
    assert (Hnz : (cond_Zopp s (Z.pos p) =? 0) = false)
      by (apply Z.eqb_neq; destruct s; simpl; lia).
    rewrite Hnz. now destruct s.
Qed.

(** The spread of the [x] values is a sum of squared differences. *)
Lemma exact_spread_x_cons (z : Z * Z) (zs : list (Z * Z)) :
  exact_spread_x (z :: zs)
  = exact_spread_x zs + zsum (fun w => (fst z - fst w) * (fst z - fst w)) zs.
Proof.
  assert (H : zsum (fun w => (fst z - fst w) * (fst z - fst w)) zs
              = Z.of_nat (List.length zs) * (fst z * fst z)
                - 2 * fst z * SX zs + SXX zs).
  { unfold SX, SXX. induction zs as [| w ws IH].
    - simpl. ring.
    - simpl zsum. simpl List.length. rewrite Nat2Z.inj_succ, IH. ring. }
  rewrite H. unfold exact_spread_x, SX, SXX. simpl zsum. simpl List.length.
  rewrite Nat2Z.inj_succ. ring.
Qed.

Lemma squares_nonneg (g : Z * Z -> Z) (zs : list (Z * Z)) :
  0 <= zsum (fun w => g w * g w) zs.
Proof.
  induction zs as [| w ws IH]; simpl; [lia |]. nia.
Qed.

Lemma squares_zero (g : Z * Z -> Z) (zs : list (Z * Z)) :
  zsum (fun w => g w * g w) zs = 0 <-> forall w, In w zs -> g w = 0.
Proof.
  induction zs as [| w ws IH]; simpl.
  - split; [intros _ v [] | reflexivity].
  - pose proof (squares_nonneg g ws) as Hn. split.
    + intros H v [<- | Hv].
      * nia.
      * apply IH; [nia | exact Hv].
    + intros H. rewrite (H w (or_introl eq_refl)).
      assert (Hr : zsum (fun w => g w * g w) ws = 0)
        by (apply IH; intros v Hv; apply H; now right).
      rewrite Hr. reflexivity.
Qed.

Lemma exact_spread_x_nonneg (zs : list (Z * Z)) : 0 <= exact_spread_x zs.
Proof.
  induction zs as [| z zs IH].
  - unfold exact_spread_x, SX, SXX. simpl. lia.
  - rewrite exact_spread_x_cons.
    pose proof (squares_nonneg (fun w => fst z - fst w) zs). lia.
Qed.

(** The spread is zero exactly when all the [x] values are the same. *)
Lemma exact_spread_x_zero (zs : list (Z * Z)) :
  exact_spread_x zs = 0 <-> forall z w, In z zs -> In w zs -> fst z = fst w.
Proof.
  induction zs as [| z zs IH].
  - split; [intros _ z w [] | reflexivity].
  - rewrite exact_spread_x_cons.
    pose proof (exact_spread_x_nonneg zs) as H1.
    pose proof (squares_nonneg (fun w => fst z - fst w) zs) as H2.
    split.
    + intros H.
      assert (Ha : exact_spread_x zs = 0) by lia.
      assert (Hb : zsum (fun w => (fst z - fst w) * (fst z - fst w)) zs = 0) by lia.
      pose proof (proj1 (squares_zero (fun w => fst z - fst w) zs) Hb) as Hz.
      pose proof (proj1 IH Ha) as Hrest.
      assert (Hhead : forall w, In w zs -> fst w = fst z).
      { intros w Hw. specialize (Hz w Hw). simpl in Hz. lia. }
      intros u v [<- | Hu] [<- | Hv].
      * reflexivity.
      * symmetry. now apply Hhead.
      * now apply Hhead.
      * now apply Hrest.
    + intros H.
      assert (Ha : exact_spread_x zs = 0).
      { apply IH. intros u v Hu Hv. apply H; now right. }
      assert (Hb : zsum (fun w => (fst z - fst w) * (fst z - fst w)) zs = 0).
      { apply squares_zero. intros w Hw.
        rewrite (H z w (or_introl eq_refl) (or_intror Hw)). lia. }
      lia.
Qed.

Section IntegerStatistics.

Variable zs : list (Z * Z).
Hypothesis Hdom : Forall in_domain zs.
Hypothesis Hlen : Z.of_nat (List.length zs) <= 1000000.

Lemma integer_regression_denominator :
  same_number (regression_denominator (map integer_point zs))
              (JS.of_Z (exact_spread_x zs)).
Proof.
  destruct (sums_bounded zs Hdom Hlen) as [Hx [Hy [Hxy [Hxx Hyy]]]].
  pose proof (Nat2Z.is_nonneg (List.length zs)) as Hn.
  unfold regression_denominator.
  rewrite integer_count, (integer_sum_x zs Hdom Hlen), (integer_sum_xx zs Hdom Hlen).
  assert (E : (2 ^ 53 = 9007199254740992)%Z) by reflexivity.
  rewrite !mul_of_Z by (rewrite E; nia).
  rewrite sub_of_Z by (rewrite E, Z.abs_mul; nia).
  reflexivity.
Qed.

Lemma integer_spread_y :
  same_number
    (JS.sub (JS.mul (count (map integer_point zs)) (sum_yy (map integer_point zs)))
            (JS.mul (sum_y (map integer_point zs)) (sum_y (map integer_point zs))))
    (JS.of_Z (exact_spread_y zs)).
Proof.
  destruct (sums_bounded zs Hdom Hlen) as [Hx [Hy [Hxy [Hxx Hyy]]]].
  pose proof (Nat2Z.is_nonneg (List.length zs)) as Hn.
  rewrite integer_count, (integer_sum_y zs Hdom Hlen), (integer_sum_yy zs Hdom Hlen).
  assert (E : (2 ^ 53 = 9007199254740992)%Z) by reflexivity.
  rewrite !mul_of_Z by (rewrite E; nia).
  rewrite sub_of_Z by (rewrite E, Z.abs_mul; nia).
  reflexivity.
Qed.

Lemma integer_numerator :
  same_number (numerator (map integer_point zs)) (JS.of_Z (exact_numerator zs)).
Proof.
  destruct (sums_bounded zs Hdom Hlen) as [Hx [Hy [Hxy [Hxx Hyy]]]].
  pose proof (Nat2Z.is_nonneg (List.length zs)) as Hn.
  unfold numerator.
  rewrite integer_count, (integer_sum_x zs Hdom Hlen), (integer_sum_y zs Hdom Hlen),
    (integer_sum_xy zs Hdom Hlen).
  assert (E : (2 ^ 53 = 9007199254740992)%Z) by reflexivity.
  rewrite !mul_of_Z by (rewrite E; nia).
  rewrite sub_of_Z by (rewrite E, Z.abs_mul; nia).
  reflexivity.
Qed.

Lemma exact_spread_x_small : Z.abs (exact_spread_x zs) < 2 ^ 53.
Proof.
  destruct (sums_bounded zs Hdom Hlen) as [Hx [Hy [Hxy [Hxx Hyy]]]].
  pose proof (Nat2Z.is_nonneg (List.length zs)) as Hn.
  assert (E : (2 ^ 53 = 9007199254740992)%Z) by reflexivity.
  rewrite E. unfold exact_spread_x. nia.
Qed.

End IntegerStatistics.

Lemma same_as_nonzero (a : JS.number) (d : Z) :
  d <> 0 -> Z.abs d < 2 ^ 53 -> same_number a (JS.of_Z d) -> a = JS.of_Z d.
Proof.
  intros Hd Hs H.
  destruct (signed_cases d) as [-> | [s [p [E P]]]]; [contradiction |].
  rewrite E, of_Z_signed in * by lia.
  destruct a; simpl in H; try discriminate H; exact H.
Qed.

(** Three or more whole-number points of the plot's domain: there is no
    regression line exactly when all the points have the same [x], and
    otherwise the slope is the quotient of the exact integers
    [n * SXY - SX * SY] and [n * SXX - SX * SX], rounded once. *)
Theorem integer_points_regression (zs : list (Z * Z)) :
  (3 <= List.length zs)%nat ->
  Forall in_domain zs ->
  Z.of_nat (List.length zs) <= 1000000 ->
  (RegressionResult.line (calculateRegression (map integer_point zs)) = None <->
   forall z w, In z zs -> In w zs -> fst z = fst w) /\
  (forall l,
     RegressionResult.line (calculateRegression (map integer_point zs)) = Some l ->
     same_number (slope l)
       (JS.div (JS.of_Z (exact_numerator zs)) (JS.of_Z (exact_spread_x zs)))).
Proof.
  intros H3 Hdom Hlen.
  rewrite calculateRegression_eq by (rewrite length_map; exact H3).
  pose proof (integer_regression_denominator zs Hdom Hlen) as Hden.
  pose proof (exact_spread_x_small zs Hdom Hlen) as Hsmall.
  assert (Hzero : JS.strict_eq (regression_denominator (map integer_point zs)) lit_0
                  = (exact_spread_x zs =? 0)).
  { rewrite Hden. now apply of_Z_is_zero. }
  rewrite Hzero.
  destruct (exact_spread_x zs =? 0) eqn:HD.
  - apply Z.eqb_eq in HD. split.
    + split; [intros _; now apply exact_spread_x_zero | reflexivity].
    + intros l Hl. discriminate Hl.
  - apply Z.eqb_neq in HD. split.
    + split; [intros Hl; discriminate Hl |].
      intros Hall. apply exact_spread_x_zero in Hall. contradiction.
    + intros l Hl. injection Hl as <-. simpl slope. unfold regression_slope.
      rewrite (same_as_nonzero _ _ HD Hsmall Hden).
      rewrite (integer_numerator zs Hdom Hlen). reflexivity.
Qed.

Lemma zero_times_integer (s : bool) (d : Z) :
  Z.abs d < 2 ^ 53 -> exists t, JS.mul (S754_zero s) (JS.of_Z d) = S754_zero t.
Proof.
  intros Hd. destruct (signed_cases d) as [-> | [sd [p [E P]]]].
  - simpl. eauto.
  - rewrite E, of_Z_signed by lia. simpl. eauto.
Qed.

Lemma exact_spread_y_small (zs : list (Z * Z)) :
  Forall in_domain zs -> Z.of_nat (List.length zs) <= 1000000 ->
  Z.abs (exact_spread_y zs) < 2 ^ 53.
Proof.
  intros Hdom Hlen.
  destruct (sums_bounded zs Hdom Hlen) as [Hx [Hy [Hxy [Hxx Hyy]]]].
  pose proof (Nat2Z.is_nonneg (List.length zs)) as Hn.
  assert (E : (2 ^ 53 = 9007199254740992)%Z) by reflexivity.
  rewrite E. unfold exact_spread_y. nia.
Qed.

(** Three or more whole-number points with the same [x]: the coefficient
    is 0 without steps, and there is neither a line nor regression steps. *)
Theorem integer_points_same_x (zs : list (Z * Z)) :
  (3 <= List.length zs)%nat ->
  Forall in_domain zs ->
  Z.of_nat (List.length zs) <= 1000000 ->
  (forall z w, In z zs -> In w zs -> fst z = fst w) ->
  calculateCorrelation (map integer_point zs) = CorrelationResult.mk (Some lit_0) None /\
  calculateRegression (map integer_point zs) = RegressionResult.mk None None.
Proof.
  intros H3 Hdom Hlen Hall.
  apply exact_spread_x_zero in Hall.
  pose proof (integer_regression_denominator zs Hdom Hlen) as Hden.
  rewrite Hall in Hden.
  split.
  - rewrite calculateCorrelation_eq by (rewrite length_map; exact H3).
    destruct (has_y_variation (map integer_point zs)); simpl; [| reflexivity].
    assert (Hlt : JS.lt (JS.abs (correlation_denominator (map integer_point zs)))
                        lit_0_0001 = true).
    { unfold correlation_denominator.
      fold (regression_denominator (map integer_point zs)).
      rewrite Hden, (integer_spread_y zs Hdom Hlen).
      destruct (zero_times_integer false (exact_spread_y zs)
                  (exact_spread_y_small zs Hdom Hlen)) as [t Ht].
      change (JS.of_Z 0) with (S754_zero false). rewrite Ht.
      rewrite lit_0_0001_value. now destruct t. }
    now rewrite Hlt.
  - rewrite calculateRegression_eq by (rewrite length_map; exact H3).
    assert (Hzero : JS.strict_eq (regression_denominator (map integer_point zs)) lit_0
                    = true) by (rewrite Hden; reflexivity).
    now rewrite Hzero.
Qed.

(** ** Square roots and quotients of whole numbers *)

Lemma digits2_pos_unique (p : positive) (t : Z) :
  2 ^ (t - 1) <= Z.pos p < 2 ^ t -> Z.pos (digits2_pos p) = t.
Proof.
  intros [Hl Hu].
  pose proof (digits2_pos_lower p) as Hl'. pose proof (digits2_pos_bound p) as Hu'.
  assert (Ht : 0 < t).
  { destruct (Z.lt_ge_cases 0 t) as [H | H]; [exact H |].
    assert (2 ^ t <= 2 ^ 0) by (apply Z.pow_le_mono_r; lia).
    destruct (Z.eq_dec t 0) as [-> | Hne]; [simpl in Hu; lia |].
    rewrite Z.pow_neg_r in Hu by lia. lia. }
  set (D := Z.pos (digits2_pos p)) in *.
  destruct (Z.lt_trichotomy D t) as [H | [H | H]]; [| exact H |].
  - assert (2 ^ D <= 2 ^ (t - 1)) by (apply Z.pow_le_mono_r; lia). lia.
  - assert (2 ^ t <= 2 ^ (D - 1)) by (apply Z.pow_le_mono_r; lia). lia.
Qed.

(** The square of a number of [t] binary digits has [2t - 1] or [2t]. *)
Lemma digits2_pos_square (q : positive) :
  let t := Z.pos (digits2_pos q) in
  Z.pos (digits2_pos (q * q)) = 2 * t - 1 \/ Z.pos (digits2_pos (q * q)) = 2 * t.
Proof.
  intros t.
  pose proof (digits2_pos_lower q) as Hl. pose proof (digits2_pos_bound q) as Hu.
  fold t in Hl, Hu.
  assert (Ht : 0 < t) by (unfold t; lia).
  assert (Hl2 : 2 ^ (2 * t - 2) <= Z.pos (q * q)).
  { replace (2 * t - 2) with ((t - 1) + (t - 1)) by lia.
    rewrite Z.pow_add_r, Pos2Z.inj_mul by lia.
    assert (0 < 2 ^ (t - 1)) by (apply Z.pow_pos_nonneg; lia). nia. }
  assert (Hu2 : Z.pos (q * q) < 2 ^ (2 * t)).
  { replace (2 * t) with (t + t) by lia.
    rewrite Z.pow_add_r, Pos2Z.inj_mul by lia. nia. }
  destruct (Z.lt_ge_cases (Z.pos (q * q)) (2 ^ (2 * t - 1))) as [H | H].
  - left. apply digits2_pos_unique.
    replace (2 * t - 1 - 1) with (2 * t - 2) by lia. lia.
  - right. apply digits2_pos_unique. lia.
Qed.

Lemma sqrtrem_square (q : Z) :
  0 < q -> Z.sqrtrem (q * q) = (q, 0).
Proof.
  intros Hq.
  pose proof (Z.sqrtrem_spec (q * q)) as H.
  destruct (Z.sqrtrem (q * q)) as [s r].
  assert (Hnn : 0 <= q * q) by nia. specialize (H Hnn). cbv beta iota in H.
  destruct H as [Heq Hr].
  assert (Hs : 0 <= s).
  { pose proof (Z.sqrtrem_sqrt (q * q)) as Hsq.
    destruct (Z.sqrtrem (q * q)) eqn:E. simpl in Hsq.
    pose proof (Z.sqrt_nonneg (q * q)). lia. }
  assert (s = q) by nia. subst s. f_equal. lia.
Qed.

Lemma slack_digits (p : positive) :
  Z.pos p < 2 ^ 53 -> Z.of_nat (slack p) = 53 - Z.pos (digits2_pos p).
Proof.
  intros Hp. unfold slack.
  pose proof (digits2_pos_lower p) as Hl.
  destruct (Z.le_gt_cases (Z.pos (digits2_pos p)) 53) as [H | H]; [lia |].
  assert (2 ^ 53 <= 2 ^ (Z.pos (digits2_pos p) - 1)) by (apply Z.pow_le_mono_r; lia).
  lia.
Qed.

Lemma shift_match (m s : Z) :
  0 < s ->
  match s with
  | Z0 => m
  | Z.pos _ => Z.shiftl m s
  | Z.neg _ => 0
  end = m * 2 ^ s.
Proof.
  intros Hs. destruct s as [| p | p]; try lia.
  apply Z.shiftl_mul_pow2. lia.
Qed.

(** The square root of the number of a square is the number of its root. *)
Lemma sqrt_of_square (q : positive) :
  Z.pos (q * q) < 2 ^ 53 ->
  JS.sqrt (JS.of_Z (Z.pos (q * q))) = JS.of_Z (Z.pos q).
Proof.
  intros Hqq.
  assert (Hq : Z.pos q < 2 ^ 53) by (rewrite Pos2Z.inj_mul in Hqq; nia).
  pose proof (of_Z_signed false (q * q) Hqq) as E2.
  pose proof (of_Z_signed false q Hq) as E1.
  simpl cond_Zopp in E1, E2. rewrite E1, E2. clear E1 E2.
  unfold JS.sqrt, SFsqrt, SFsqrt_core_binary.
  set (t := Z.pos (digits2_pos q)).
  set (D := Z.pos (digits2_pos (q * q))).
  assert (Ht : 0 < t) by (unfold t; lia).
  assert (HD : D = 2 * t - 1 \/ D = 2 * t) by apply digits2_pos_square.
  assert (Hs2 : Z.of_nat (slack (q * q)) = 53 - D) by now apply slack_digits.
  assert (Hs1 : Z.of_nat (slack q) = 53 - t) by now apply slack_digits.
  assert (Ht53 : t <= 53) by lia.
  simpl Zdigits2. rewrite (shift_left_full (q * q) Hqq), Hs2.
  assert (Hhalf : Z.div2 (53 + - (53 - D) + 1) = t).
  { rewrite Z.div2_div. symmetry. apply Z.div_unique with (r := D + 1 - 2 * t); lia. }
  rewrite Hhalf.
  assert (He' : Z.min (fexp JS.prec JS.emax t) (Z.div2 (- (53 - D))) = t - 53).
  { assert (Hf : fexp JS.prec JS.emax t = t - 53)
      by (cbv [SpecFloat.fexp SpecFloat.emin JS.prec JS.emax]; lia).
    rewrite Hf, Z.div2_div.
    assert (t - 53 <= (- (53 - D)) / 2) by (apply Z.div_le_lower_bound; lia).
    lia. }
  rewrite He'.
  set (sh := - (53 - D) - 2 * (t - 53)).
  assert (Hsh : 0 < sh) by (unfold sh; lia).
  rewrite shift_match by exact Hsh.
  assert (Hm : Z.pos (shift_left (q * q) (slack (q * q))) * 2 ^ sh
               = (Z.pos q * 2 ^ (53 - t)) * (Z.pos q * 2 ^ (53 - t))).
  { rewrite shift_left_value, Hs2, Pos2Z.inj_mul.
    replace sh with ((53 - t) + (53 - t) - (53 - D)) by (unfold sh; lia).
    replace ((53 - t) + (53 - t) - (53 - D))
      with ((53 - t) + ((53 - t) - (53 - D))) by lia.
    rewrite (Z.pow_add_r 2 (53 - t)) by lia.
    assert (Hp : 2 ^ (53 - t) = 2 ^ (53 - D) * 2 ^ ((53 - t) - (53 - D))).
    { rewrite <- Z.pow_add_r by lia. f_equal. lia. }
    rewrite Hp at 3. ring. }
  rewrite Hm, sqrtrem_square
    by (apply Z.mul_pos_pos; [lia | apply Z.pow_pos_nonneg; lia]).
  simpl Z.eqb.
  assert (Hroot : Z.pos q * 2 ^ (53 - t) = Z.pos (shift_left q (slack q))).
  { now rewrite shift_left_value, Hs1. }
  rewrite Hroot, binary_round_long by (rewrite shift_left_full; [lia | exact Hq]).
  replace (t - 53) with (0 - Z.of_nat (slack q)) by lia.
  rewrite binary_round_shift. apply (binary_round_small false q Hq).
Qed.

(** A finite number divided by its magnitude is 1 or -1. *)
Lemma div_by_magnitude (s : bool) (m : positive) (e : Z) :
  JS.div (S754_finite s m e) (S754_finite false m e) = JS.of_Z (cond_Zopp s 1).
Proof.
  unfold JS.div, SFdiv, SFdiv_core_binary.
  replace (Zdigits2 (Z.pos m) + e - (Zdigits2 (Z.pos m) + e)) with 0 by lia.
  rewrite Z.sub_diag.
  assert (He : Z.min (fexp JS.prec JS.emax 0) 0 = -53) by reflexivity.
  rewrite He. simpl Z.sub.
  rewrite Z.shiftl_mul_pow2 by lia.
  assert (Hdiv : Z.div_eucl (Z.pos m * 2 ^ 53) (Z.pos m) = (2 ^ 53, 0)).
  { pose proof (Z.div_eucl_eq (Z.pos m * 2 ^ 53) (Z.pos m)) as Heq.
    pose proof (Z.mod_pos_bound (Z.pos m * 2 ^ 53) (Z.pos m)) as Hb.
    unfold Z.modulo in Hb.
    destruct (Z.div_eucl (Z.pos m * 2 ^ 53) (Z.pos m)) as [q r].
    assert (Hm : 0 < Z.pos m) by lia.
    specialize (Heq ltac:(lia)). specialize (Hb Hm).
    assert (Hq : q = 2 ^ 53) by nia.
    subst q. f_equal. lia. }
  rewrite Hdiv.
  assert (Hloc : new_location (Z.pos m) 0 = loc_Exact).
  { unfold new_location, new_location_even, new_location_odd.
    now destruct (Z.even (Z.pos m)). }
  rewrite Hloc. rewrite xorb_false_r.
  destruct s; vm_compute; reflexivity.
Qed.

Lemma not_below_threshold (p : positive) :
  Z.pos p < 2 ^ 53 ->
  JS.lt (JS.abs (JS.of_Z (Z.pos p))) lit_0_0001 = false.
Proof.
  intros Hp.
  pose proof (of_Z_signed false p Hp) as E. simpl cond_Zopp in E. rewrite E.
  rewrite lit_0_0001_value.
  pose proof (slack_digits p Hp) as Hs.
  pose proof (Pos2Z.is_pos (digits2_pos p)) as Hd.
  unfold JS.lt, JS.abs, SFabs, SFltb, SFcompare.
  assert (Hc : (- Z.of_nat (slack p) ?= -66) = Gt) by (apply Z.compare_gt_iff; lia).
  now rewrite Hc.
Qed.

Lemma exact_numerator_small (zs : list (Z * Z)) :
  Forall in_domain zs -> Z.of_nat (List.length zs) <= 500 ->
  Z.abs (exact_numerator zs) <= 50000000.
Proof.
  intros Hdom Hlen.
  assert (Hlen' : Z.of_nat (List.length zs) <= 1000000) by lia.
  destruct (sums_bounded zs Hdom Hlen') as [Hx [Hy [Hxy [Hxx Hyy]]]].
  pose proof (Nat2Z.is_nonneg (List.length zs)) as Hn.
  unfold exact_numerator. nia.
Qed.

(** Perfectly correlated whole-number points: the coefficient is exactly 1
    or -1. *)
Lemma perfect_correlation (zs : list (Z * Z)) :
  (3 <= List.length zs)%nat ->
  Forall in_domain zs ->
  Z.of_nat (List.length zs) <= 500 ->
  has_y_variation (map integer_point zs) = true ->
  exact_numerator zs * exact_numerator zs = exact_spread_x zs * exact_spread_y zs ->
  exact_numerator zs <> 0 ->
  CorrelationResult.correlation (calculateCorrelation (map integer_point zs))
    = Some (JS.of_Z (Z.sgn (exact_numerator zs))).
Proof.
  intros H3 Hdom Hlen Hvar Hsq Hnz.
  assert (Hlen' : Z.of_nat (List.length zs) <= 1000000) by lia.
  pose proof (exact_numerator_small zs Hdom Hlen) as HN.
  pose proof (exact_spread_x_small zs Hdom Hlen') as HA.
  pose proof (exact_spread_y_small zs Hdom Hlen') as HB.
  assert (E53 : (2 ^ 53 = 9007199254740992)%Z) by reflexivity.
  destruct (signed_cases (exact_numerator zs)) as [H0 | [s [q [EN Pq]]]];
    [contradiction |].
  assert (Hq : Z.pos q <= 50000000) by lia.
  assert (Hqq : Z.pos (q * q) < 2 ^ 53) by (rewrite E53, Pos2Z.inj_mul; nia).
  assert (Hq53 : Z.pos q < 2 ^ 53) by (rewrite E53; lia).
  (* the denominator *)
  assert (Hden : correlation_denominator (map integer_point zs) = JS.of_Z (Z.pos q)).
  { apply same_as_nonzero; [lia | exact Hq53 |].
    unfold correlation_denominator.
    fold (regression_denominator (map integer_point zs)).
    rewrite (integer_regression_denominator zs Hdom Hlen'),
      (integer_spread_y zs Hdom Hlen').
    rewrite mul_of_Z by assumption.
    rewrite <- Hsq, EN.
    replace (cond_Zopp s (Z.pos q) * cond_Zopp s (Z.pos q)) with (Z.pos (q * q))
      by (rewrite Pos2Z.inj_mul; destruct s; unfold cond_Zopp; ring).
    rewrite (sqrt_of_square q Hqq). reflexivity. }
  rewrite correlation_of_many by (rewrite length_map; exact H3).
  unfold passes_guards. rewrite Hvar, Hden, (not_below_threshold q Hq53). cbn [andb negb].
  f_equal.
  assert (Hsgn : Z.sgn (exact_numerator zs) = cond_Zopp s 1)
    by (rewrite EN; destruct s; reflexivity).
  rewrite Hsgn.
  apply same_as_nonzero.
  - destruct s; simpl; lia.
  - rewrite E53. destruct s; simpl; lia.
  - rewrite (integer_numerator zs Hdom Hlen'), EN.
    rewrite (of_Z_signed s q Hq53).
    pose proof (of_Z_signed false q Hq53) as E. simpl cond_Zopp in E. rewrite E.
    rewrite div_by_magnitude. reflexivity.
Qed.

Lemma digits2_pos_product (p q : positive) :
  Z.pos (digits2_pos (p * q)) <= Z.pos (digits2_pos p) + Z.pos (digits2_pos q).
Proof.
  pose proof (digits2_pos_lower (p * q)) as Hl.
  pose proof (digits2_pos_bound p) as Hp. pose proof (digits2_pos_bound q) as Hq.
  set (D := Z.pos (digits2_pos (p * q))) in *.
  set (P := Z.pos (digits2_pos p)) in *. set (Q := Z.pos (digits2_pos q)) in *.
  assert (HP : 0 < P) by (unfold P; lia). assert (HQ : 0 < Q) by (unfold Q; lia).
  destruct (Z.le_gt_cases D (P + Q)) as [H | H]; [exact H |].
  assert (Hpow : 2 ^ (P + Q) <= 2 ^ (D - 1)) by (apply Z.pow_le_mono_r; lia).
  rewrite Z.pow_add_r in Hpow by lia.
  rewrite Pos2Z.inj_mul in Hl.
  assert (0 < Z.pos p) by lia. assert (0 < Z.pos q) by lia.
  nia.
Qed.

Lemma exact_quotient (a b : Z) :
  0 < b -> Z.div_eucl (a * b) b = (a, 0).
Proof.
  intros Hb.
  pose proof (Z.div_eucl_eq (a * b) b) as Heq.
  pose proof (Z.mod_pos_bound (a * b) b Hb) as Hr.
  unfold Z.modulo in Hr.
  destruct (Z.div_eucl (a * b) b) as [q r].
  specialize (Heq ltac:(lia)).
  assert (Hq : q = a) by nia.
  subst q. f_equal. lia.
Qed.

(** A whole-number quotient is exact. *)
Lemma div_of_Z (c b : Z) :
  Z.abs (c * b) < 2 ^ 53 -> Z.abs b < 2 ^ 53 -> b <> 0 ->
  same_number (JS.div (JS.of_Z (c * b)) (JS.of_Z b)) (JS.of_Z c).
Proof.
  intros Hcb Hb Hnz.
  destruct (signed_cases b) as [-> | [sb [pb [Eb Pb]]]]; [contradiction |].
  destruct (signed_cases c) as [-> | [sc [pc [Ec Pc]]]].
  - rewrite Z.mul_0_l, Eb, of_Z_signed by lia. exact I.
  - assert (Eprod : c * b = cond_Zopp (xorb sc sb) (Z.pos (pc * pb)))
      by (rewrite Ec, Eb; destruct sc, sb; unfold cond_Zopp; simpl xorb;
          rewrite Pos2Z.inj_mul; ring).
    assert (Hprod : Z.pos (pc * pb) < 2 ^ 53)
      by (rewrite Pos2Z.inj_mul, Pc, Pb, <- Z.abs_mul; exact Hcb).
    assert (Hpb : Z.pos pb < 2 ^ 53) by lia.
    rewrite Eprod, (of_Z_signed _ _ Hprod).
    rewrite Eb at 1. rewrite (of_Z_signed _ _ Hpb).
    pose proof (slack_digits _ Hprod) as K1. pose proof (slack_digits _ Hpb) as K2.
    pose proof (digits2_pos_product pc pb) as Hdig.
    pose proof (Pos2Z.is_pos (digits2_pos pb)) as Hdb.
    pose proof (Pos2Z.is_pos (digits2_pos pc)) as Hdc.
    pose proof (Pos2Z.is_pos (digits2_pos (pc * pb))) as Hdcb.
    unfold JS.div, SFdiv, SFdiv_core_binary.
    unfold Zdigits2.
    rewrite (shift_left_full _ Hprod), (shift_left_full _ Hpb).
    set (k1 := slack (pc * pb)) in *. set (k2 := slack pb) in *.
    assert (He : Z.min (fexp JS.prec JS.emax (53 + - Z.of_nat k1 - (53 + - Z.of_nat k2)))
                       (- Z.of_nat k1 - - Z.of_nat k2)
                 = Z.of_nat k2 - Z.of_nat k1 - 53).
    { cbv [SpecFloat.fexp SpecFloat.emin JS.prec JS.emax]. lia. }
    rewrite He.
    replace (- Z.of_nat k1 - - Z.of_nat k2 - (Z.of_nat k2 - Z.of_nat k1 - 53))
      with 53 by lia.
    rewrite Z.shiftl_mul_pow2 by lia.
    set (K := Z.to_nat (53 + Z.of_nat k1 - Z.of_nat k2)).
    assert (HK : Z.of_nat K = 53 + Z.of_nat k1 - Z.of_nat k2) by (unfold K; lia).
    assert (Hnum : Z.pos (shift_left (pc * pb) k1) * 2 ^ 53
                   = Z.pos (shift_left pc K) * Z.pos (shift_left pb k2)).
    { rewrite !shift_left_value, Pos2Z.inj_mul, HK.
      replace (53 + Z.of_nat k1 - Z.of_nat k2) with (53 + Z.of_nat k1 + - Z.of_nat k2)
        by lia.
      assert (Hsplit : 2 ^ (53 + Z.of_nat k1) = 2 ^ (53 + Z.of_nat k1 + - Z.of_nat k2)
                                               * 2 ^ Z.of_nat k2).
      { rewrite <- Z.pow_add_r by lia. f_equal. lia. }
      rewrite (Z.pow_add_r 2 53 (Z.of_nat k1)) in Hsplit by lia.
      nia. }
    rewrite Hnum, exact_quotient by lia.
    assert (Hloc : new_location (Z.pos (shift_left pb k2)) 0 = loc_Exact).
    { unfold new_location, new_location_even, new_location_odd.
      now destruct (Z.even (Z.pos (shift_left pb k2))). }
    rewrite Hloc.
    rewrite binary_round_long by (rewrite shift_left_digits; lia).
    replace (Z.of_nat k2 - Z.of_nat k1 - 53) with (0 - Z.of_nat K) by lia.
    rewrite binary_round_shift.
    replace (xorb (xorb sc sb) sb) with sc by (destruct sc, sb; reflexivity).
    rewrite Ec. unfold JS.of_Z.
    destruct sc; simpl cond_Zopp; simpl binary_normalize; apply same_number_refl.
Qed.

(** ** Whole-number points on a line *)

Lemma line_sums (p q d : Z) (zs : list (Z * Z)) :
  Forall (on_line p q d) zs ->
  q * SY zs = p * SX zs + Z.of_nat (List.length zs) * d /\
  q * SXY zs = p * SXX zs + d * SX zs /\
  q * q * SYY zs = p * p * SXX zs + 2 * p * d * SX zs
                   + Z.of_nat (List.length zs) * d * d.
Proof.
  unfold SX, SY, SXY, SXX, SYY.
  induction 1 as [| z zs Hz Hzs [IH1 [IH2 IH3]]].
  - simpl. repeat split; ring.
  - unfold on_line in Hz. simpl zsum. simpl List.length. rewrite Nat2Z.inj_succ.
    destruct z as [u v]. simpl fst in *. simpl snd in *.
    repeat split.
    + rewrite Z.mul_add_distr_l, IH1, Hz. ring.
    + replace (q * (u * v + zsum (fun z => fst z * snd z) zs))
        with (u * (q * v) + q * zsum (fun z => fst z * snd z) zs) by ring.
      rewrite IH2, Hz. ring.
    + replace (q * q * (v * v + zsum (fun z => snd z * snd z) zs))
        with ((q * v) * (q * v) + q * q * zsum (fun z => snd z * snd z) zs) by ring.
      rewrite IH3, Hz. ring.
Qed.

Lemma line_statistics (p q d : Z) (zs : list (Z * Z)) :
  Forall (on_line p q d) zs ->
  q * exact_numerator zs = p * exact_spread_x zs /\
  q * q * exact_spread_y zs = p * p * exact_spread_x zs.
Proof.
  intros H. destruct (line_sums p q d zs H) as [H1 [H2 H3]].
  unfold exact_numerator, exact_spread_x, exact_spread_y.
  set (n := Z.of_nat (List.length zs)) in *.
  split.
  - replace (q * (n * SXY zs - SX zs * SY zs))
      with (n * (q * SXY zs) - SX zs * (q * SY zs)) by ring.
    rewrite H1, H2. ring.
  - replace (q * q * (n * SYY zs - SY zs * SY zs))
      with (n * (q * q * SYY zs) - (q * SY zs) * (q * SY zs)) by ring.
    rewrite H1, H3. ring.
Qed.

Lemma spread_positive (zs : list (Z * Z)) :
  (exists z w, In z zs /\ In w zs /\ fst z <> fst w) -> 0 < exact_spread_x zs.
Proof.
  intros [z [w [Hz [Hw Hne]]]].
  pose proof (exact_spread_x_nonneg zs) as H0.
  destruct (Z.eq_dec (exact_spread_x zs) 0) as [E | E]; [| lia].
  exfalso. apply Hne. exact (proj1 (exact_spread_x_zero zs) E z w Hz Hw).
Qed.

(** Whole-number points on a line that is neither horizontal nor vertical:
    the coefficient is exactly 1 or -1, with the sign of the slope. *)
Theorem integer_points_on_a_line (p q d : Z) (zs : list (Z * Z)) :
  (3 <= List.length zs)%nat ->
  Z.of_nat (List.length zs) <= 500 ->
  Forall in_domain zs ->
  Forall (on_line p q d) zs ->
  p <> 0 -> q <> 0 ->
  (exists z w, In z zs /\ In w zs /\ fst z <> fst w) ->
  has_y_variation (map integer_point zs) = true ->
  CorrelationResult.correlation (calculateCorrelation (map integer_point zs))
    = Some (JS.of_Z (Z.sgn (p * q))).
Proof.
  intros H3 Hlen Hdom Hline Hp Hq Hx Hvar.
  destruct (line_statistics p q d zs Hline) as [HN HB].
  pose proof (spread_positive zs Hx) as HA.
  set (N := exact_numerator zs) in *. set (A := exact_spread_x zs) in *.
  set (B := exact_spread_y zs) in *.
  assert (Hsq : N * N = A * B).
  { assert (H : q * q * (N * N - A * B) = 0).
    { replace (q * q * (N * N - A * B))
        with ((q * N) * (q * N) - A * (q * q * B)) by ring.
      rewrite HN, HB. ring. }
    apply Z.mul_eq_0 in H. destruct H as [H | H]; [| lia].
    apply Z.mul_eq_0 in H. destruct H; contradiction. }
  assert (HNz : N <> 0).
  { intros E. rewrite E, Z.mul_0_r in HN. symmetry in HN.
    apply Z.mul_eq_0 in HN. lia. }
  assert (Hsgn : Z.sgn N = Z.sgn (p * q)).
  { assert (E : Z.sgn q * Z.sgn N = Z.sgn p).
    { rewrite <- Z.sgn_mul, HN, Z.sgn_mul, (Z.sgn_pos A HA). ring. }
    rewrite Z.sgn_mul.
    assert (Hqq : Z.sgn q * Z.sgn q = 1).
    { destruct q; simpl; try reflexivity; contradiction. }
    rewrite <- E.
    replace (Z.sgn q * Z.sgn N * Z.sgn q) with (Z.sgn q * Z.sgn q * Z.sgn N) by ring.
    rewrite Hqq. ring. }
  rewrite <- Hsgn.
  apply perfect_correlation; assumption.
Qed.

(** Whole-number points on a line [y = c * x + d] with whole-number [c] and
    [d], not all above one another: the fitted line is that line. *)
Theorem integer_line_is_recovered (c d : Z) (zs : list (Z * Z)) :
  (3 <= List.length zs)%nat ->
  Z.of_nat (List.length zs) <= 1000000 ->
  Forall in_domain zs ->
  Forall (on_line c 1 d) zs ->
  (exists z w, In z zs /\ In w zs /\ fst z <> fst w) ->
  exists l,
    RegressionResult.line (calculateRegression (map integer_point zs)) = Some l /\
    same_number (slope l) (JS.of_Z c) /\
    same_number (intercept l) (JS.of_Z d).
Proof.
  intros H3 Hlen Hdom Hline Hx.
  pose proof (spread_positive zs Hx) as HA.
  destruct (line_statistics c 1 d zs Hline) as [HN _].
  destruct (line_sums c 1 d zs Hline) as [HY _].
  rewrite Z.mul_1_l in HN, HY.
  pose proof (exact_spread_x_small zs Hdom Hlen) as HAs.
  pose proof (integer_regression_denominator zs Hdom Hlen) as Hden.
  destruct (sums_bounded zs Hdom Hlen) as [HSX [HSY _]].
  assert (E53 : 2 ^ 53 = 9007199254740992) by reflexivity.
  (* the slope and the intercept of the line are small *)
  assert (Hc : Z.abs c <= 20).
  { destruct Hx as [z [w [Hz [Hw Hne]]]].
    pose proof (proj1 (Forall_forall _ _) Hline z Hz) as Lz.
    pose proof (proj1 (Forall_forall _ _) Hline w Hw) as Lw.
    pose proof (proj1 (Forall_forall _ _) Hdom z Hz) as [_ Dz].
    pose proof (proj1 (Forall_forall _ _) Hdom w Hw) as [_ Dw].
    unfold on_line in Lz, Lw.
    assert (Hdiff : snd z - snd w = c * (fst z - fst w)) by lia.
    nia. }
  assert (Hd : Z.abs d <= 210).
  { destruct Hx as [z [_ [Hz _]]].
    pose proof (proj1 (Forall_forall _ _) Hline z Hz) as Lz.
    pose proof (proj1 (Forall_forall _ _) Hdom z Hz) as [Dx Dy].
    unfold on_line in Lz. nia. }
  pose proof (Nat2Z.is_nonneg (List.length zs)) as Hn0.
  assert (Hn : Z.of_nat (List.length zs) <> 0) by lia.
  assert (Hden' : regression_denominator (map integer_point zs)
                  = JS.of_Z (exact_spread_x zs))
    by (apply same_as_nonzero; [lia | exact HAs | exact Hden]).
  eexists. split; [| split].
  - rewrite calculateRegression_eq by (rewrite length_map; exact H3).
    assert (Hzero : JS.strict_eq (regression_denominator (map integer_point zs)) lit_0
                    = (exact_spread_x zs =? 0)).
    { rewrite Hden. now apply of_Z_is_zero. }
    rewrite Hzero.
    assert (HD : (exact_spread_x zs =? 0) = false) by (apply Z.eqb_neq; lia).
    rewrite HD. reflexivity.
  - cbn [slope]. unfold regression_slope.
    rewrite (integer_numerator zs Hdom Hlen), Hden', HN.
    apply div_of_Z; [| exact HAs | lia].
    rewrite <- HN.
    destruct (sums_bounded zs Hdom Hlen) as [Hx1 [Hy1 [Hxy1 _]]].
    rewrite E53. unfold exact_numerator. nia.
  - cbn [intercept]. unfold regression_intercept, regression_slope.
    rewrite (integer_numerator zs Hdom Hlen), Hden', HN.
    assert (Hslope : same_number (JS.div (JS.of_Z (c * exact_spread_x zs))
                                         (JS.of_Z (exact_spread_x zs))) (JS.of_Z c)).
    { apply div_of_Z; [| exact HAs | lia].
      rewrite <- HN.
      destruct (sums_bounded zs Hdom Hlen) as [Hx1 [Hy1 [Hxy1 _]]].
      rewrite E53. unfold exact_numerator. nia. }
    rewrite Hslope.
    rewrite (integer_sum_x zs Hdom Hlen), (integer_sum_y zs Hdom Hlen), integer_count.
    rewrite mul_of_Z by (rewrite E53; lia).
    rewrite sub_of_Z by (rewrite E53; nia).
    replace (SY zs - c * SX zs) with (d * Z.of_nat (List.length zs)) by lia.
    apply div_of_Z; [rewrite E53; nia | rewrite E53; lia | exact Hn].
Qed.

Lemma integer_points_regression_witness :
  (RegressionResult.line (calculateRegression (map integer_point rising_points)) = None <->
   forall z w, In z rising_points -> In w rising_points -> fst z = fst w) /\
  (forall l,
     RegressionResult.line (calculateRegression (map integer_point rising_points)) = Some l ->
     same_number (slope l)
       (JS.div (JS.of_Z (exact_numerator rising_points))
               (JS.of_Z (exact_spread_x rising_points)))).
Proof.
  apply (integer_points_regression rising_points).
  - simpl. lia.
  - repeat constructor; simpl; lia.
  - simpl. lia.
Defined.

Lemma integer_points_same_x_witness :
  calculateCorrelation (map integer_point stacked_points)
    = CorrelationResult.mk (Some lit_0) None /\
  calculateRegression (map integer_point stacked_points) = RegressionResult.mk None None.
Proof.
  apply (integer_points_same_x stacked_points).
  - simpl. lia.
  - repeat constructor; simpl; lia.
  - simpl. lia.
  - intros z w Hz Hw. simpl in Hz, Hw.
    destruct Hz as [<- | [<- | [<- | []]]]; destruct Hw as [<- | [<- | [<- | []]]];
      reflexivity.
Defined.

Lemma integer_points_on_a_line_witness :
  CorrelationResult.correlation (calculateCorrelation (map integer_point falling_points))
    = Some (JS.of_Z (Z.sgn (-1 * 2))).
Proof.
  apply (integer_points_on_a_line (-1) 2 6 falling_points).
  - simpl. lia.
  - simpl. lia.
  - repeat constructor; simpl; lia.
  - repeat constructor.
  - lia.
  - lia.
  - exists (-4, 5), (0, 3). simpl. repeat split; [tauto | tauto | lia].
  - vm_compute. reflexivity.
Defined.

Lemma integer_line_is_recovered_witness :
  exists l,
    RegressionResult.line (calculateRegression (map integer_point rising_points)) = Some l /\
    same_number (slope l) (JS.of_Z 2) /\
    same_number (intercept l) (JS.of_Z 1).
Proof.
  apply (integer_line_is_recovered 2 1 rising_points).
  - simpl. lia.
  - simpl. lia.
  - repeat constructor; simpl; lia.
  - repeat constructor.
  - exists (0, 1), (1, 3). simpl. repeat split; [tauto | tauto | lia].
Defined.
